(** * Pishti: a shallow embedding of the card-game engine

    The engine lives in [game.go] (type [Casino] and its methods) with the
    card type of [card.go]; the driver that sequences the engine's
    operations lives in [audio.go] (type [AppUI]).

    Conventions of the embedding.
    - A Go [int] is a [Z]; additions on the engine's counters go through
      [wrap], the two's-complement wrap-around of a 64-bit [int].
    - A [*Card] is a [Slot] = [option Card]; [None] is the nil pointer.
    - A slice is a [list]; reading or writing outside its bounds, calling
      a method on a nil card and [Intn] with a non-positive bound panic.
      An operation that can panic returns an [option]: [None] is the panic.
    - The mutex [mu] is not modelled: every operation runs to completion
      before the next one starts.  Sound notifications ([PlaySound]) are
      fire-and-forget calls outside the engine state and are left out.
    - The random source is a [Rand]: a stream of raw draws with a cursor.
    - A count that is known to be positive is decremented without [wrap].

    The file has three parts: the embedding of the source, the definitions
    that the properties are stated with, and the properties. *)

From Stdlib Require Import ZArith String DecimalString Lia.
From stdpp Require Import base option list.

Local Open Scope string_scope.
Local Open Scope list_scope.
Local Open Scope Z_scope.

(** ** Machine integers and slices *)

Definition wrap (z : Z) : Z := (z + 2 ^ 63) mod 2 ^ 64 - 2 ^ 63.

(** [xs[i]]: panics outside [0 <= i < len xs]. *)
Definition index {A} (xs : list A) (i : Z) : option A :=
  if 0 <=? i then xs !! Z.to_nat i else None.

(** [xs[i] = v]: panics outside [0 <= i < len xs]. *)
Definition store {A} (xs : list A) (i : Z) (v : A) : option (list A) :=
  if (0 <=? i) && (i <? Z.of_nat (length xs))
  then Some (<[Z.to_nat i := v]> xs) else None.

(** [copy(dst, src)]: overwrites the first [min (len dst) (len src)]
    elements of [dst]. *)
Definition copy {A} (dst src : list A) : list A :=
  take (length dst) src ++ drop (length src) dst.

(** [s := make([]T, n); copy(s, xs[:n])]: panics unless [0 <= n <= len xs]
    (the slices of the engine have their capacity equal to their length). *)
Definition sliceTo {A} (xs : list A) (n : Z) : option (list A) :=
  if (0 <=? n) && (n <=? Z.of_nat (length xs))
  then Some (take (Z.to_nat n) xs) else None.

(** [for i := lo; i < lo + n; i++ { body }] over a state [St]. *)
Fixpoint for_range {St} (n : nat) (i : Z) (body : Z → St → option St) (s : St)
  : option St :=
  match n with
  | O => Some s
  | S n' => s' ← body i s; for_range n' (i + 1) body s'
  end.

(** ** Cards ([card.go]) *)

Record Card := NewCard { face : string; suit : string; iconPath : string }.

Abbreviation Slot := (option Card).

(** Methods on a [*Card]: a nil receiver panics on the field access. *)
Definition GetFace (p : Slot) : option string := c ← p; Some (face c).
Definition GetSuit (p : Slot) : option string := c ← p; Some (suit c).

Definition isNil (p : Slot) : bool := if p is Some _ then false else true.

(** ** Enumerations and constants ([game.go]) *)

Inductive GameState :=
  StateNotStarted | StatePlayerTurn | StateCPUTurn | StateGameOver | StatePileCaptured.
Inductive PlayerID := NoPlayer | Player | CPU.
Inductive GameLevel :=
  LevelNotSelected | LevelBeginner | LevelIntermediate | LevelAdvanced.

#[global] Instance GameState_eq_dec : EqDecision GameState.
Proof. solve_decision. Defined.
#[global] Instance PlayerID_eq_dec : EqDecision PlayerID.
Proof. solve_decision. Defined.
#[global] Instance GameLevel_eq_dec : EqDecision GameLevel.
Proof. solve_decision. Defined.

(** The numeric value of a level, and the levels that [SetLevel] accepts. *)
Definition GameLevel_of_Z (z : Z) : option GameLevel :=
  match z with
  | 0 => Some LevelNotSelected
  | 1 => Some LevelBeginner
  | 2 => Some LevelIntermediate
  | 3 => Some LevelAdvanced
  | _ => None
  end.

Definition DeckSize : Z := 52.
Definition HandSize : Z := 4.

(** ** The random source *)

Record Rand := mkRand { source : nat → Z; drawn : nat }.

(** [rng.Intn(n)]: a value in [0, n); panics when [n <= 0]. *)
Definition Intn (n : Z) (r : Rand) : option (Z * Rand) :=
  if n <=? 0 then None
  else Some (source r (drawn r) mod n, mkRand (source r) (S (drawn r))).

(** ** The undo snapshot *)

Module UndoState.
Record t := mk {
  playerPoint : Z;
  cpuPoint : Z;
  lastScorer : PlayerID;
  cardsCollectedByPlayer : Z;
  cardsCollectedByCPU : Z;
  cardsOnTable : Z;
  tableCards : list Slot;
  playerCards : list Slot;
  initialHiddenCards : option (list Slot);
  safeDiscardCandidate : Slot;
  isInitialPile : bool;
  cpuCards : list Slot;
  currentHandMemory : list Slot;
  currentHandMemoryLength : Z
}.
(** The zero value of the struct. *)
Definition zero : t := mk 0 0 NoPlayer 0 0 0 [] [] None None false [] [] 0.
End UndoState.

(** ** The engine state

    The constant tables [faces] and [suits] and the mutex are not fields
    of the record. *)

Record Casino := mkCasino {
  cpuCards : list Slot;
  allPlayedCardsMemory : list Slot;
  currentHandMemory : list Slot;
  deck : list Slot;
  playerCards : list Slot;
  tableCards : list Slot;
  cardsCollectedByPlayer : Z;
  cardsCollectedByCPU : Z;
  cardsOnTable : Z;
  currentHandMemoryLength : Z;
  allPlayedCardsMemoryLength : Z;
  cpuPoint : Z;
  currentCard : Z;
  gameState : GameState;
  initialHiddenCards : option (list Slot);
  safeDiscardCandidate : Slot;
  initialPileCaptureMsg : string;
  lastPlayedCPUCardIdx : Z;
  lastPlayedPlayerCard : Z;
  lastScorer : PlayerID;
  level : GameLevel;
  playerPoint : Z;
  canUndo : bool;
  isInitialPile : bool;
  undoState : UndoState.t;
  rng : Rand
}.

Definition set_cpuCards (v : list Slot) (c : Casino) : Casino :=
  {| cpuCards := v; allPlayedCardsMemory := allPlayedCardsMemory c; currentHandMemory :=
  currentHandMemory c; deck := deck c; playerCards := playerCards c; tableCards := tableCards c;
  cardsCollectedByPlayer := cardsCollectedByPlayer c; cardsCollectedByCPU := cardsCollectedByCPU
  c; cardsOnTable := cardsOnTable c; currentHandMemoryLength := currentHandMemoryLength c;
  allPlayedCardsMemoryLength := allPlayedCardsMemoryLength c; cpuPoint := cpuPoint c; currentCard
  := currentCard c; gameState := gameState c; initialHiddenCards := initialHiddenCards c;
  safeDiscardCandidate := safeDiscardCandidate c; initialPileCaptureMsg := initialPileCaptureMsg
  c; lastPlayedCPUCardIdx := lastPlayedCPUCardIdx c; lastPlayedPlayerCard := lastPlayedPlayerCard
  c; lastScorer := lastScorer c; level := level c; playerPoint := playerPoint c; canUndo :=
  canUndo c; isInitialPile := isInitialPile c; undoState := undoState c; rng := rng c |}.
Definition set_allPlayedCardsMemory (v : list Slot) (c : Casino) : Casino :=
  {| cpuCards := cpuCards c; allPlayedCardsMemory := v; currentHandMemory := currentHandMemory c;
  deck := deck c; playerCards := playerCards c; tableCards := tableCards c; cardsCollectedByPlayer
  := cardsCollectedByPlayer c; cardsCollectedByCPU := cardsCollectedByCPU c; cardsOnTable :=
  cardsOnTable c; currentHandMemoryLength := currentHandMemoryLength c; allPlayedCardsMemoryLength
  := allPlayedCardsMemoryLength c; cpuPoint := cpuPoint c; currentCard := currentCard c; gameState
  := gameState c; initialHiddenCards := initialHiddenCards c; safeDiscardCandidate :=
  safeDiscardCandidate c; initialPileCaptureMsg := initialPileCaptureMsg c; lastPlayedCPUCardIdx
  := lastPlayedCPUCardIdx c; lastPlayedPlayerCard := lastPlayedPlayerCard c; lastScorer :=
  lastScorer c; level := level c; playerPoint := playerPoint c; canUndo := canUndo c;
  isInitialPile := isInitialPile c; undoState := undoState c; rng := rng c |}.
Definition set_currentHandMemory (v : list Slot) (c : Casino) : Casino :=
  {| cpuCards := cpuCards c; allPlayedCardsMemory := allPlayedCardsMemory c; currentHandMemory :=
  v; deck := deck c; playerCards := playerCards c; tableCards := tableCards c;
  cardsCollectedByPlayer := cardsCollectedByPlayer c; cardsCollectedByCPU := cardsCollectedByCPU
  c; cardsOnTable := cardsOnTable c; currentHandMemoryLength := currentHandMemoryLength c;
  allPlayedCardsMemoryLength := allPlayedCardsMemoryLength c; cpuPoint := cpuPoint c; currentCard
  := currentCard c; gameState := gameState c; initialHiddenCards := initialHiddenCards c;
  safeDiscardCandidate := safeDiscardCandidate c; initialPileCaptureMsg := initialPileCaptureMsg
  c; lastPlayedCPUCardIdx := lastPlayedCPUCardIdx c; lastPlayedPlayerCard := lastPlayedPlayerCard
  c; lastScorer := lastScorer c; level := level c; playerPoint := playerPoint c; canUndo :=
  canUndo c; isInitialPile := isInitialPile c; undoState := undoState c; rng := rng c |}.
Definition set_deck (v : list Slot) (c : Casino) : Casino :=
  {| cpuCards := cpuCards c; allPlayedCardsMemory := allPlayedCardsMemory c; currentHandMemory :=
  currentHandMemory c; deck := v; playerCards := playerCards c; tableCards := tableCards c;
  cardsCollectedByPlayer := cardsCollectedByPlayer c; cardsCollectedByCPU := cardsCollectedByCPU
  c; cardsOnTable := cardsOnTable c; currentHandMemoryLength := currentHandMemoryLength c;
  allPlayedCardsMemoryLength := allPlayedCardsMemoryLength c; cpuPoint := cpuPoint c; currentCard
  := currentCard c; gameState := gameState c; initialHiddenCards := initialHiddenCards c;
  safeDiscardCandidate := safeDiscardCandidate c; initialPileCaptureMsg := initialPileCaptureMsg
  c; lastPlayedCPUCardIdx := lastPlayedCPUCardIdx c; lastPlayedPlayerCard := lastPlayedPlayerCard
  c; lastScorer := lastScorer c; level := level c; playerPoint := playerPoint c; canUndo :=
  canUndo c; isInitialPile := isInitialPile c; undoState := undoState c; rng := rng c |}.
Definition set_playerCards (v : list Slot) (c : Casino) : Casino :=
  {| cpuCards := cpuCards c; allPlayedCardsMemory := allPlayedCardsMemory c; currentHandMemory :=
  currentHandMemory c; deck := deck c; playerCards := v; tableCards := tableCards c;
  cardsCollectedByPlayer := cardsCollectedByPlayer c; cardsCollectedByCPU := cardsCollectedByCPU
  c; cardsOnTable := cardsOnTable c; currentHandMemoryLength := currentHandMemoryLength c;
  allPlayedCardsMemoryLength := allPlayedCardsMemoryLength c; cpuPoint := cpuPoint c; currentCard
  := currentCard c; gameState := gameState c; initialHiddenCards := initialHiddenCards c;
  safeDiscardCandidate := safeDiscardCandidate c; initialPileCaptureMsg := initialPileCaptureMsg
  c; lastPlayedCPUCardIdx := lastPlayedCPUCardIdx c; lastPlayedPlayerCard := lastPlayedPlayerCard
  c; lastScorer := lastScorer c; level := level c; playerPoint := playerPoint c; canUndo :=
  canUndo c; isInitialPile := isInitialPile c; undoState := undoState c; rng := rng c |}.
Definition set_tableCards (v : list Slot) (c : Casino) : Casino :=
  {| cpuCards := cpuCards c; allPlayedCardsMemory := allPlayedCardsMemory c; currentHandMemory :=
  currentHandMemory c; deck := deck c; playerCards := playerCards c; tableCards := v;
  cardsCollectedByPlayer := cardsCollectedByPlayer c; cardsCollectedByCPU := cardsCollectedByCPU
  c; cardsOnTable := cardsOnTable c; currentHandMemoryLength := currentHandMemoryLength c;
  allPlayedCardsMemoryLength := allPlayedCardsMemoryLength c; cpuPoint := cpuPoint c; currentCard
  := currentCard c; gameState := gameState c; initialHiddenCards := initialHiddenCards c;
  safeDiscardCandidate := safeDiscardCandidate c; initialPileCaptureMsg := initialPileCaptureMsg
  c; lastPlayedCPUCardIdx := lastPlayedCPUCardIdx c; lastPlayedPlayerCard := lastPlayedPlayerCard
  c; lastScorer := lastScorer c; level := level c; playerPoint := playerPoint c; canUndo :=
  canUndo c; isInitialPile := isInitialPile c; undoState := undoState c; rng := rng c |}.
Definition set_cardsCollectedByPlayer (v : Z) (c : Casino) : Casino :=
  {| cpuCards := cpuCards c; allPlayedCardsMemory := allPlayedCardsMemory c; currentHandMemory :=
  currentHandMemory c; deck := deck c; playerCards := playerCards c; tableCards := tableCards c;
  cardsCollectedByPlayer := v; cardsCollectedByCPU := cardsCollectedByCPU c; cardsOnTable :=
  cardsOnTable c; currentHandMemoryLength := currentHandMemoryLength c; allPlayedCardsMemoryLength
  := allPlayedCardsMemoryLength c; cpuPoint := cpuPoint c; currentCard := currentCard c; gameState
  := gameState c; initialHiddenCards := initialHiddenCards c; safeDiscardCandidate :=
  safeDiscardCandidate c; initialPileCaptureMsg := initialPileCaptureMsg c; lastPlayedCPUCardIdx
  := lastPlayedCPUCardIdx c; lastPlayedPlayerCard := lastPlayedPlayerCard c; lastScorer :=
  lastScorer c; level := level c; playerPoint := playerPoint c; canUndo := canUndo c;
  isInitialPile := isInitialPile c; undoState := undoState c; rng := rng c |}.
Definition set_cardsCollectedByCPU (v : Z) (c : Casino) : Casino :=
  {| cpuCards := cpuCards c; allPlayedCardsMemory := allPlayedCardsMemory c; currentHandMemory :=
  currentHandMemory c; deck := deck c; playerCards := playerCards c; tableCards := tableCards c;
  cardsCollectedByPlayer := cardsCollectedByPlayer c; cardsCollectedByCPU := v; cardsOnTable :=
  cardsOnTable c; currentHandMemoryLength := currentHandMemoryLength c; allPlayedCardsMemoryLength
  := allPlayedCardsMemoryLength c; cpuPoint := cpuPoint c; currentCard := currentCard c; gameState
  := gameState c; initialHiddenCards := initialHiddenCards c; safeDiscardCandidate :=
  safeDiscardCandidate c; initialPileCaptureMsg := initialPileCaptureMsg c; lastPlayedCPUCardIdx
  := lastPlayedCPUCardIdx c; lastPlayedPlayerCard := lastPlayedPlayerCard c; lastScorer :=
  lastScorer c; level := level c; playerPoint := playerPoint c; canUndo := canUndo c;
  isInitialPile := isInitialPile c; undoState := undoState c; rng := rng c |}.
Definition set_cardsOnTable (v : Z) (c : Casino) : Casino :=
  {| cpuCards := cpuCards c; allPlayedCardsMemory := allPlayedCardsMemory c; currentHandMemory :=
  currentHandMemory c; deck := deck c; playerCards := playerCards c; tableCards := tableCards c;
  cardsCollectedByPlayer := cardsCollectedByPlayer c; cardsCollectedByCPU := cardsCollectedByCPU
  c; cardsOnTable := v; currentHandMemoryLength := currentHandMemoryLength c;
  allPlayedCardsMemoryLength := allPlayedCardsMemoryLength c; cpuPoint := cpuPoint c; currentCard
  := currentCard c; gameState := gameState c; initialHiddenCards := initialHiddenCards c;
  safeDiscardCandidate := safeDiscardCandidate c; initialPileCaptureMsg := initialPileCaptureMsg
  c; lastPlayedCPUCardIdx := lastPlayedCPUCardIdx c; lastPlayedPlayerCard := lastPlayedPlayerCard
  c; lastScorer := lastScorer c; level := level c; playerPoint := playerPoint c; canUndo :=
  canUndo c; isInitialPile := isInitialPile c; undoState := undoState c; rng := rng c |}.
Definition set_currentHandMemoryLength (v : Z) (c : Casino) : Casino :=
  {| cpuCards := cpuCards c; allPlayedCardsMemory := allPlayedCardsMemory c; currentHandMemory :=
  currentHandMemory c; deck := deck c; playerCards := playerCards c; tableCards := tableCards c;
  cardsCollectedByPlayer := cardsCollectedByPlayer c; cardsCollectedByCPU := cardsCollectedByCPU
  c; cardsOnTable := cardsOnTable c; currentHandMemoryLength := v; allPlayedCardsMemoryLength :=
  allPlayedCardsMemoryLength c; cpuPoint := cpuPoint c; currentCard := currentCard c; gameState :=
  gameState c; initialHiddenCards := initialHiddenCards c; safeDiscardCandidate :=
  safeDiscardCandidate c; initialPileCaptureMsg := initialPileCaptureMsg c; lastPlayedCPUCardIdx
  := lastPlayedCPUCardIdx c; lastPlayedPlayerCard := lastPlayedPlayerCard c; lastScorer :=
  lastScorer c; level := level c; playerPoint := playerPoint c; canUndo := canUndo c;
  isInitialPile := isInitialPile c; undoState := undoState c; rng := rng c |}.
Definition set_allPlayedCardsMemoryLength (v : Z) (c : Casino) : Casino :=
  {| cpuCards := cpuCards c; allPlayedCardsMemory := allPlayedCardsMemory c; currentHandMemory :=
  currentHandMemory c; deck := deck c; playerCards := playerCards c; tableCards := tableCards c;
  cardsCollectedByPlayer := cardsCollectedByPlayer c; cardsCollectedByCPU := cardsCollectedByCPU
  c; cardsOnTable := cardsOnTable c; currentHandMemoryLength := currentHandMemoryLength c;
  allPlayedCardsMemoryLength := v; cpuPoint := cpuPoint c; currentCard := currentCard c; gameState
  := gameState c; initialHiddenCards := initialHiddenCards c; safeDiscardCandidate :=
  safeDiscardCandidate c; initialPileCaptureMsg := initialPileCaptureMsg c; lastPlayedCPUCardIdx
  := lastPlayedCPUCardIdx c; lastPlayedPlayerCard := lastPlayedPlayerCard c; lastScorer :=
  lastScorer c; level := level c; playerPoint := playerPoint c; canUndo := canUndo c;
  isInitialPile := isInitialPile c; undoState := undoState c; rng := rng c |}.
Definition set_cpuPoint (v : Z) (c : Casino) : Casino :=
  {| cpuCards := cpuCards c; allPlayedCardsMemory := allPlayedCardsMemory c; currentHandMemory :=
  currentHandMemory c; deck := deck c; playerCards := playerCards c; tableCards := tableCards c;
  cardsCollectedByPlayer := cardsCollectedByPlayer c; cardsCollectedByCPU := cardsCollectedByCPU
  c; cardsOnTable := cardsOnTable c; currentHandMemoryLength := currentHandMemoryLength c;
  allPlayedCardsMemoryLength := allPlayedCardsMemoryLength c; cpuPoint := v; currentCard :=
  currentCard c; gameState := gameState c; initialHiddenCards := initialHiddenCards c;
  safeDiscardCandidate := safeDiscardCandidate c; initialPileCaptureMsg := initialPileCaptureMsg
  c; lastPlayedCPUCardIdx := lastPlayedCPUCardIdx c; lastPlayedPlayerCard := lastPlayedPlayerCard
  c; lastScorer := lastScorer c; level := level c; playerPoint := playerPoint c; canUndo :=
  canUndo c; isInitialPile := isInitialPile c; undoState := undoState c; rng := rng c |}.
Definition set_currentCard (v : Z) (c : Casino) : Casino :=
  {| cpuCards := cpuCards c; allPlayedCardsMemory := allPlayedCardsMemory c; currentHandMemory :=
  currentHandMemory c; deck := deck c; playerCards := playerCards c; tableCards := tableCards c;
  cardsCollectedByPlayer := cardsCollectedByPlayer c; cardsCollectedByCPU := cardsCollectedByCPU
  c; cardsOnTable := cardsOnTable c; currentHandMemoryLength := currentHandMemoryLength c;
  allPlayedCardsMemoryLength := allPlayedCardsMemoryLength c; cpuPoint := cpuPoint c; currentCard
  := v; gameState := gameState c; initialHiddenCards := initialHiddenCards c; safeDiscardCandidate
  := safeDiscardCandidate c; initialPileCaptureMsg := initialPileCaptureMsg c;
  lastPlayedCPUCardIdx := lastPlayedCPUCardIdx c; lastPlayedPlayerCard := lastPlayedPlayerCard c;
  lastScorer := lastScorer c; level := level c; playerPoint := playerPoint c; canUndo := canUndo
  c; isInitialPile := isInitialPile c; undoState := undoState c; rng := rng c |}.
Definition set_gameState (v : GameState) (c : Casino) : Casino :=
  {| cpuCards := cpuCards c; allPlayedCardsMemory := allPlayedCardsMemory c; currentHandMemory :=
  currentHandMemory c; deck := deck c; playerCards := playerCards c; tableCards := tableCards c;
  cardsCollectedByPlayer := cardsCollectedByPlayer c; cardsCollectedByCPU := cardsCollectedByCPU
  c; cardsOnTable := cardsOnTable c; currentHandMemoryLength := currentHandMemoryLength c;
  allPlayedCardsMemoryLength := allPlayedCardsMemoryLength c; cpuPoint := cpuPoint c; currentCard
  := currentCard c; gameState := v; initialHiddenCards := initialHiddenCards c;
  safeDiscardCandidate := safeDiscardCandidate c; initialPileCaptureMsg := initialPileCaptureMsg
  c; lastPlayedCPUCardIdx := lastPlayedCPUCardIdx c; lastPlayedPlayerCard := lastPlayedPlayerCard
  c; lastScorer := lastScorer c; level := level c; playerPoint := playerPoint c; canUndo :=
  canUndo c; isInitialPile := isInitialPile c; undoState := undoState c; rng := rng c |}.
Definition set_initialHiddenCards (v : option (list Slot)) (c : Casino) : Casino :=
  {| cpuCards := cpuCards c; allPlayedCardsMemory := allPlayedCardsMemory c; currentHandMemory :=
  currentHandMemory c; deck := deck c; playerCards := playerCards c; tableCards := tableCards c;
  cardsCollectedByPlayer := cardsCollectedByPlayer c; cardsCollectedByCPU := cardsCollectedByCPU
  c; cardsOnTable := cardsOnTable c; currentHandMemoryLength := currentHandMemoryLength c;
  allPlayedCardsMemoryLength := allPlayedCardsMemoryLength c; cpuPoint := cpuPoint c; currentCard
  := currentCard c; gameState := gameState c; initialHiddenCards := v; safeDiscardCandidate :=
  safeDiscardCandidate c; initialPileCaptureMsg := initialPileCaptureMsg c; lastPlayedCPUCardIdx
  := lastPlayedCPUCardIdx c; lastPlayedPlayerCard := lastPlayedPlayerCard c; lastScorer :=
  lastScorer c; level := level c; playerPoint := playerPoint c; canUndo := canUndo c;
  isInitialPile := isInitialPile c; undoState := undoState c; rng := rng c |}.
Definition set_safeDiscardCandidate (v : Slot) (c : Casino) : Casino :=
  {| cpuCards := cpuCards c; allPlayedCardsMemory := allPlayedCardsMemory c; currentHandMemory :=
  currentHandMemory c; deck := deck c; playerCards := playerCards c; tableCards := tableCards c;
  cardsCollectedByPlayer := cardsCollectedByPlayer c; cardsCollectedByCPU := cardsCollectedByCPU
  c; cardsOnTable := cardsOnTable c; currentHandMemoryLength := currentHandMemoryLength c;
  allPlayedCardsMemoryLength := allPlayedCardsMemoryLength c; cpuPoint := cpuPoint c; currentCard
  := currentCard c; gameState := gameState c; initialHiddenCards := initialHiddenCards c;
  safeDiscardCandidate := v; initialPileCaptureMsg := initialPileCaptureMsg c;
  lastPlayedCPUCardIdx := lastPlayedCPUCardIdx c; lastPlayedPlayerCard := lastPlayedPlayerCard c;
  lastScorer := lastScorer c; level := level c; playerPoint := playerPoint c; canUndo := canUndo
  c; isInitialPile := isInitialPile c; undoState := undoState c; rng := rng c |}.
Definition set_initialPileCaptureMsg (v : string) (c : Casino) : Casino :=
  {| cpuCards := cpuCards c; allPlayedCardsMemory := allPlayedCardsMemory c; currentHandMemory :=
  currentHandMemory c; deck := deck c; playerCards := playerCards c; tableCards := tableCards c;
  cardsCollectedByPlayer := cardsCollectedByPlayer c; cardsCollectedByCPU := cardsCollectedByCPU
  c; cardsOnTable := cardsOnTable c; currentHandMemoryLength := currentHandMemoryLength c;
  allPlayedCardsMemoryLength := allPlayedCardsMemoryLength c; cpuPoint := cpuPoint c; currentCard
  := currentCard c; gameState := gameState c; initialHiddenCards := initialHiddenCards c;
  safeDiscardCandidate := safeDiscardCandidate c; initialPileCaptureMsg := v; lastPlayedCPUCardIdx
  := lastPlayedCPUCardIdx c; lastPlayedPlayerCard := lastPlayedPlayerCard c; lastScorer :=
  lastScorer c; level := level c; playerPoint := playerPoint c; canUndo := canUndo c;
  isInitialPile := isInitialPile c; undoState := undoState c; rng := rng c |}.
Definition set_lastPlayedCPUCardIdx (v : Z) (c : Casino) : Casino :=
  {| cpuCards := cpuCards c; allPlayedCardsMemory := allPlayedCardsMemory c; currentHandMemory :=
  currentHandMemory c; deck := deck c; playerCards := playerCards c; tableCards := tableCards c;
  cardsCollectedByPlayer := cardsCollectedByPlayer c; cardsCollectedByCPU := cardsCollectedByCPU
  c; cardsOnTable := cardsOnTable c; currentHandMemoryLength := currentHandMemoryLength c;
  allPlayedCardsMemoryLength := allPlayedCardsMemoryLength c; cpuPoint := cpuPoint c; currentCard
  := currentCard c; gameState := gameState c; initialHiddenCards := initialHiddenCards c;
  safeDiscardCandidate := safeDiscardCandidate c; initialPileCaptureMsg := initialPileCaptureMsg
  c; lastPlayedCPUCardIdx := v; lastPlayedPlayerCard := lastPlayedPlayerCard c; lastScorer :=
  lastScorer c; level := level c; playerPoint := playerPoint c; canUndo := canUndo c;
  isInitialPile := isInitialPile c; undoState := undoState c; rng := rng c |}.
Definition set_lastPlayedPlayerCard (v : Z) (c : Casino) : Casino :=
  {| cpuCards := cpuCards c; allPlayedCardsMemory := allPlayedCardsMemory c; currentHandMemory :=
  currentHandMemory c; deck := deck c; playerCards := playerCards c; tableCards := tableCards c;
  cardsCollectedByPlayer := cardsCollectedByPlayer c; cardsCollectedByCPU := cardsCollectedByCPU
  c; cardsOnTable := cardsOnTable c; currentHandMemoryLength := currentHandMemoryLength c;
  allPlayedCardsMemoryLength := allPlayedCardsMemoryLength c; cpuPoint := cpuPoint c; currentCard
  := currentCard c; gameState := gameState c; initialHiddenCards := initialHiddenCards c;
  safeDiscardCandidate := safeDiscardCandidate c; initialPileCaptureMsg := initialPileCaptureMsg
  c; lastPlayedCPUCardIdx := lastPlayedCPUCardIdx c; lastPlayedPlayerCard := v; lastScorer :=
  lastScorer c; level := level c; playerPoint := playerPoint c; canUndo := canUndo c;
  isInitialPile := isInitialPile c; undoState := undoState c; rng := rng c |}.
Definition set_lastScorer (v : PlayerID) (c : Casino) : Casino :=
  {| cpuCards := cpuCards c; allPlayedCardsMemory := allPlayedCardsMemory c; currentHandMemory :=
  currentHandMemory c; deck := deck c; playerCards := playerCards c; tableCards := tableCards c;
  cardsCollectedByPlayer := cardsCollectedByPlayer c; cardsCollectedByCPU := cardsCollectedByCPU
  c; cardsOnTable := cardsOnTable c; currentHandMemoryLength := currentHandMemoryLength c;
  allPlayedCardsMemoryLength := allPlayedCardsMemoryLength c; cpuPoint := cpuPoint c; currentCard
  := currentCard c; gameState := gameState c; initialHiddenCards := initialHiddenCards c;
  safeDiscardCandidate := safeDiscardCandidate c; initialPileCaptureMsg := initialPileCaptureMsg
  c; lastPlayedCPUCardIdx := lastPlayedCPUCardIdx c; lastPlayedPlayerCard := lastPlayedPlayerCard
  c; lastScorer := v; level := level c; playerPoint := playerPoint c; canUndo := canUndo c;
  isInitialPile := isInitialPile c; undoState := undoState c; rng := rng c |}.
Definition set_level (v : GameLevel) (c : Casino) : Casino :=
  {| cpuCards := cpuCards c; allPlayedCardsMemory := allPlayedCardsMemory c; currentHandMemory :=
  currentHandMemory c; deck := deck c; playerCards := playerCards c; tableCards := tableCards c;
  cardsCollectedByPlayer := cardsCollectedByPlayer c; cardsCollectedByCPU := cardsCollectedByCPU
  c; cardsOnTable := cardsOnTable c; currentHandMemoryLength := currentHandMemoryLength c;
  allPlayedCardsMemoryLength := allPlayedCardsMemoryLength c; cpuPoint := cpuPoint c; currentCard
  := currentCard c; gameState := gameState c; initialHiddenCards := initialHiddenCards c;
  safeDiscardCandidate := safeDiscardCandidate c; initialPileCaptureMsg := initialPileCaptureMsg
  c; lastPlayedCPUCardIdx := lastPlayedCPUCardIdx c; lastPlayedPlayerCard := lastPlayedPlayerCard
  c; lastScorer := lastScorer c; level := v; playerPoint := playerPoint c; canUndo := canUndo c;
  isInitialPile := isInitialPile c; undoState := undoState c; rng := rng c |}.
Definition set_playerPoint (v : Z) (c : Casino) : Casino :=
  {| cpuCards := cpuCards c; allPlayedCardsMemory := allPlayedCardsMemory c; currentHandMemory :=
  currentHandMemory c; deck := deck c; playerCards := playerCards c; tableCards := tableCards c;
  cardsCollectedByPlayer := cardsCollectedByPlayer c; cardsCollectedByCPU := cardsCollectedByCPU
  c; cardsOnTable := cardsOnTable c; currentHandMemoryLength := currentHandMemoryLength c;
  allPlayedCardsMemoryLength := allPlayedCardsMemoryLength c; cpuPoint := cpuPoint c; currentCard
  := currentCard c; gameState := gameState c; initialHiddenCards := initialHiddenCards c;
  safeDiscardCandidate := safeDiscardCandidate c; initialPileCaptureMsg := initialPileCaptureMsg
  c; lastPlayedCPUCardIdx := lastPlayedCPUCardIdx c; lastPlayedPlayerCard := lastPlayedPlayerCard
  c; lastScorer := lastScorer c; level := level c; playerPoint := v; canUndo := canUndo c;
  isInitialPile := isInitialPile c; undoState := undoState c; rng := rng c |}.
Definition set_canUndo (v : bool) (c : Casino) : Casino :=
  {| cpuCards := cpuCards c; allPlayedCardsMemory := allPlayedCardsMemory c; currentHandMemory :=
  currentHandMemory c; deck := deck c; playerCards := playerCards c; tableCards := tableCards c;
  cardsCollectedByPlayer := cardsCollectedByPlayer c; cardsCollectedByCPU := cardsCollectedByCPU
  c; cardsOnTable := cardsOnTable c; currentHandMemoryLength := currentHandMemoryLength c;
  allPlayedCardsMemoryLength := allPlayedCardsMemoryLength c; cpuPoint := cpuPoint c; currentCard
  := currentCard c; gameState := gameState c; initialHiddenCards := initialHiddenCards c;
  safeDiscardCandidate := safeDiscardCandidate c; initialPileCaptureMsg := initialPileCaptureMsg
  c; lastPlayedCPUCardIdx := lastPlayedCPUCardIdx c; lastPlayedPlayerCard := lastPlayedPlayerCard
  c; lastScorer := lastScorer c; level := level c; playerPoint := playerPoint c; canUndo := v;
  isInitialPile := isInitialPile c; undoState := undoState c; rng := rng c |}.
Definition set_isInitialPile (v : bool) (c : Casino) : Casino :=
  {| cpuCards := cpuCards c; allPlayedCardsMemory := allPlayedCardsMemory c; currentHandMemory :=
  currentHandMemory c; deck := deck c; playerCards := playerCards c; tableCards := tableCards c;
  cardsCollectedByPlayer := cardsCollectedByPlayer c; cardsCollectedByCPU := cardsCollectedByCPU
  c; cardsOnTable := cardsOnTable c; currentHandMemoryLength := currentHandMemoryLength c;
  allPlayedCardsMemoryLength := allPlayedCardsMemoryLength c; cpuPoint := cpuPoint c; currentCard
  := currentCard c; gameState := gameState c; initialHiddenCards := initialHiddenCards c;
  safeDiscardCandidate := safeDiscardCandidate c; initialPileCaptureMsg := initialPileCaptureMsg
  c; lastPlayedCPUCardIdx := lastPlayedCPUCardIdx c; lastPlayedPlayerCard := lastPlayedPlayerCard
  c; lastScorer := lastScorer c; level := level c; playerPoint := playerPoint c; canUndo :=
  canUndo c; isInitialPile := v; undoState := undoState c; rng := rng c |}.
Definition set_undoState (v : UndoState.t) (c : Casino) : Casino :=
  {| cpuCards := cpuCards c; allPlayedCardsMemory := allPlayedCardsMemory c; currentHandMemory :=
  currentHandMemory c; deck := deck c; playerCards := playerCards c; tableCards := tableCards c;
  cardsCollectedByPlayer := cardsCollectedByPlayer c; cardsCollectedByCPU := cardsCollectedByCPU
  c; cardsOnTable := cardsOnTable c; currentHandMemoryLength := currentHandMemoryLength c;
  allPlayedCardsMemoryLength := allPlayedCardsMemoryLength c; cpuPoint := cpuPoint c; currentCard
  := currentCard c; gameState := gameState c; initialHiddenCards := initialHiddenCards c;
  safeDiscardCandidate := safeDiscardCandidate c; initialPileCaptureMsg := initialPileCaptureMsg
  c; lastPlayedCPUCardIdx := lastPlayedCPUCardIdx c; lastPlayedPlayerCard := lastPlayedPlayerCard
  c; lastScorer := lastScorer c; level := level c; playerPoint := playerPoint c; canUndo :=
  canUndo c; isInitialPile := isInitialPile c; undoState := v; rng := rng c |}.
Definition set_rng (v : Rand) (c : Casino) : Casino :=
  {| cpuCards := cpuCards c; allPlayedCardsMemory := allPlayedCardsMemory c; currentHandMemory :=
  currentHandMemory c; deck := deck c; playerCards := playerCards c; tableCards := tableCards c;
  cardsCollectedByPlayer := cardsCollectedByPlayer c; cardsCollectedByCPU := cardsCollectedByCPU
  c; cardsOnTable := cardsOnTable c; currentHandMemoryLength := currentHandMemoryLength c;
  allPlayedCardsMemoryLength := allPlayedCardsMemoryLength c; cpuPoint := cpuPoint c; currentCard
  := currentCard c; gameState := gameState c; initialHiddenCards := initialHiddenCards c;
  safeDiscardCandidate := safeDiscardCandidate c; initialPileCaptureMsg := initialPileCaptureMsg
  c; lastPlayedCPUCardIdx := lastPlayedCPUCardIdx c; lastPlayedPlayerCard := lastPlayedPlayerCard
  c; lastScorer := lastScorer c; level := level c; playerPoint := playerPoint c; canUndo :=
  canUndo c; isInitialPile := isInitialPile c; undoState := undoState c; rng := v |}.

Arguments set_cpuCards v c /.
Arguments set_allPlayedCardsMemory v c /.
Arguments set_currentHandMemory v c /.
Arguments set_deck v c /.
Arguments set_playerCards v c /.
Arguments set_tableCards v c /.
Arguments set_cardsCollectedByPlayer v c /.
Arguments set_cardsCollectedByCPU v c /.
Arguments set_cardsOnTable v c /.
Arguments set_currentHandMemoryLength v c /.
Arguments set_allPlayedCardsMemoryLength v c /.
Arguments set_cpuPoint v c /.
Arguments set_currentCard v c /.
Arguments set_gameState v c /.
Arguments set_initialHiddenCards v c /.
Arguments set_safeDiscardCandidate v c /.
Arguments set_initialPileCaptureMsg v c /.
Arguments set_lastPlayedCPUCardIdx v c /.
Arguments set_lastPlayedPlayerCard v c /.
Arguments set_lastScorer v c /.
Arguments set_level v c /.
Arguments set_playerPoint v c /.
Arguments set_canUndo v c /.
Arguments set_isInitialPile v c /.
Arguments set_undoState v c /.
Arguments set_rng v c /.

(** ** Construction, shuffle and deal *)

Definition faces : list string :=
  ["Ace"; "Deuce"; "Three"; "Four"; "Five"; "Six"; "Seven"; "Eight"; "Nine";
   "Ten"; "Jack"; "Queen"; "King"].
Definition suits : list string := ["Hearts"; "Diamonds"; "Clubs"; "Spades"].

Definition Itoa (z : Z) : string := NilZero.string_of_int (Z.to_int z).

Definition newDeck : list Slot :=
  (λ i, Some (NewCard (nth (Z.to_nat (Z.rem i 13)) faces EmptyString)
                      (nth (Z.to_nat (Z.quot i 13)) suits EmptyString)
                      (Itoa (i + 1)))) <$> seqZ 0 DeckSize.

Definition NewCasino (r : Rand) : Casino :=
  {| cpuCards := replicate (Z.to_nat HandSize) None;
     allPlayedCardsMemory := replicate (Z.to_nat DeckSize) None;
     currentHandMemory := replicate (Z.to_nat DeckSize) None;
     deck := newDeck;
     playerCards := replicate (Z.to_nat HandSize) None;
     tableCards := replicate (Z.to_nat DeckSize) None;
     cardsCollectedByPlayer := 0; cardsCollectedByCPU := 0; cardsOnTable := 0;
     currentHandMemoryLength := 0; allPlayedCardsMemoryLength := 0;
     cpuPoint := 0; currentCard := 0; gameState := StateNotStarted;
     initialHiddenCards := None; safeDiscardCandidate := None;
     initialPileCaptureMsg := EmptyString; lastPlayedCPUCardIdx := 0;
     lastPlayedPlayerCard := 0; lastScorer := NoPlayer;
     level := LevelNotSelected; playerPoint := 0; canUndo := false;
     isInitialPile := false; undoState := UndoState.zero; rng := r |}.

Definition shuffle (c : Casino) : option Casino :=
  for_range (Z.to_nat DeckSize) 0 (λ i c,
    '(swapped, r) ← Intn DeckSize (rng c);
    a ← index (deck c) i;
    b ← index (deck c) swapped;
    d ← store (deck c) i b;
    d ← store d swapped a;
    Some (set_deck d (set_rng r c))) c.

Definition deal (c : Casino) : option Casino :=
  if DeckSize <=? currentCard c then Some c else
  c ← (if isInitialPile c then Some c else
         c ← for_range (Z.to_nat (currentHandMemoryLength c)) 0 (λ i c,
                m ← store (currentHandMemory c) i None;
                Some (set_currentHandMemory m c))
              (set_safeDiscardCandidate None c);
         Some (set_currentHandMemoryLength 0 c));
  c ← for_range (Z.to_nat HandSize) 0 (λ i c,
         card ← index (deck c) (currentCard c);
         h ← store (playerCards c) i card;
         Some (set_currentCard (wrap (currentCard c + 1)) (set_playerCards h c))) c;
  for_range (Z.to_nat HandSize) 0 (λ i c,
    card ← index (deck c) (currentCard c);
    h ← store (cpuCards c) i card;
    Some (set_currentCard (wrap (currentCard c + 1)) (set_cpuCards h c))) c.

(** The assignments of [resetGameInternal] before its first loop. *)
Definition resetScores (c : Casino) : Casino :=
  let c := set_gameState StateNotStarted c in
  let c := set_level LevelNotSelected c in
  let c := set_cardsCollectedByPlayer 0 c in
  let c := set_cardsCollectedByCPU 0 c in
  let c := set_cardsOnTable 0 c in
  let c := set_currentHandMemoryLength 0 c in
  set_allPlayedCardsMemoryLength 0 c.

(** The loop that clears the long-term memory. *)
Definition forgetAllPlayed (c : Casino) : option Casino :=
  for_range (length (allPlayedCardsMemory c)) 0 (λ i c,
    m ← store (allPlayedCardsMemory c) i None;
    Some (set_allPlayedCardsMemory m c)) c.

(** The assignments between the first loop and the last two. *)
Definition resetFlags (c : Casino) : Casino :=
  let c := set_cpuPoint 0 c in
  let c := set_playerPoint 0 c in
  let c := set_lastPlayedCPUCardIdx (-1) c in
  let c := set_lastPlayedPlayerCard (-1) c in
  let c := set_lastScorer NoPlayer c in
  let c := set_isInitialPile false c in
  let c := set_canUndo false c in
  let c := set_currentCard 0 c in
  let c := set_safeDiscardCandidate None c in
  let c := set_initialHiddenCards None c in
  set_initialPileCaptureMsg EmptyString c.

(** The loops that clear the hands and the card slices. *)
Definition clearHands (c : Casino) : option Casino :=
  for_range (Z.to_nat HandSize) 0 (λ i c,
    p ← store (playerCards c) i None;
    q ← store (cpuCards c) i None;
    Some (set_cpuCards q (set_playerCards p c))) c.

Definition clearSlices (c : Casino) : option Casino :=
  for_range (Z.to_nat DeckSize) 0 (λ i c,
    t ← store (tableCards c) i None;
    m ← store (currentHandMemory c) i None;
    a ← store (allPlayedCardsMemory c) i None;
    Some (set_allPlayedCardsMemory a (set_currentHandMemory m (set_tableCards t c)))) c.

Definition resetGameInternal (c : Casino) : option Casino :=
  c ← forgetAllPlayed (resetScores c);
  c ← clearHands (resetFlags c);
  clearSlices c.

Definition ResetGame (c : Casino) : option Casino := resetGameInternal c.

(** The assignments of [StartGame] that reset the scores and counters and
    set the initial game state. *)
Definition resetCounters (c : Casino) : Casino :=
  let c := set_playerPoint 0 c in
  let c := set_cpuPoint 0 c in
  let c := set_cardsCollectedByPlayer 0 c in
  let c := set_safeDiscardCandidate None c in
  let c := set_initialHiddenCards None c in
  let c := set_cardsCollectedByCPU 0 c in
  let c := set_cardsOnTable HandSize c in
  let c := set_currentHandMemoryLength 0 c in
  let c := set_allPlayedCardsMemoryLength 0 c in
  let c := set_gameState StatePlayerTurn c in
  let c := set_isInitialPile true c in
  let c := set_lastPlayedCPUCardIdx (-1) c in
  set_lastPlayedPlayerCard (-1) c.

(** The loop of [StartGame] that deals the first four cards to the table. *)
Definition layTable (c : Casino) : option Casino :=
  for_range (Z.to_nat HandSize) 0 (λ i c,
    card ← index (deck c) i;
    t ← store (tableCards c) i card;
    Some (set_tableCards t c)) c.

(** The three hidden cards of the initial pile are recorded. *)
Definition recordHidden (c : Casino) : option Casino :=
  if 3 <=? Z.of_nat (length (tableCards c)) then
    t0 ← index (tableCards c) 0;
    t1 ← index (tableCards c) 1;
    t2 ← index (tableCards c) 2;
    Some (set_initialHiddenCards (Some [t0; t1; t2]) c)
  else Some c.

Definition StartGame (c : Casino) : option (bool * Casino) :=
  c ← (if decide (gameState c ≠ StateNotStarted) then resetGameInternal c else Some c);
  if decide (level c = LevelNotSelected) then Some (false, c) else
  c ← shuffle (set_currentCard 0 c);
  c ← layTable (resetCounters c);
  c ← recordHidden c;
  c ← deal (set_currentCard HandSize c);
  Some (true, c).

(** [SetLevel]: the argument is a raw [GameLevel] integer; values outside
    [LevelNotSelected .. LevelAdvanced] are rejected with a message. *)
Definition SetLevel (level : Z) (c : Casino) : Casino :=
  if (0 <=? level) && (level <=? 3) then
    match GameLevel_of_Z level with
    | Some l => set_level l c
    | None => c
    end
  else c.

(** ** Scoring *)

(** [pointCalculator]: points of the cards currently on the table. *)
Definition pointCalculator (c : Casino) : option Z :=
  for_range (Z.to_nat (cardsOnTable c)) 0 (λ i point,
    card ← index (tableCards c) i;
    f ← GetFace card;
    if String.eqb f "Jack" then Some (wrap (point + 1))
    else if String.eqb f "Ace" then Some (wrap (point + 1))
    else if String.eqb f "Deuce" then
      s ← GetSuit card;
      if String.eqb s "Clubs" then Some (wrap (point + 2)) else Some point
    else if String.eqb f "Ten" then
      s ← GetSuit card;
      if String.eqb s "Diamonds" then Some (wrap (point + 3)) else Some point
    else Some point) 0.

(** [getCardValue]: the point value of a single card. *)
Definition getCardValue (card : Slot) : Z :=
  match card with
  | None => 0
  | Some k =>
      if String.eqb (face k) "Jack" || String.eqb (face k) "Ace" then 1
      else if String.eqb (face k) "Deuce" then
        if String.eqb (suit k) "Clubs" then 2 else 0
      else if String.eqb (face k) "Ten" then
        if String.eqb (suit k) "Diamonds" then 3 else 0
      else 0
  end.

(** ** Turn processing *)

Definition hiddenMsg (f0 f1 f2 : string) : string :=
  String.append "You captured the hidden cards: "
    (String.append f0 (String.append ", "
      (String.append f1 (String.append ", and " (String.append f2 "!"))))).

Definition remember (playedCard : Slot) (c : Casino) : option Casino :=
  match level c with
  | LevelIntermediate =>
      if currentHandMemoryLength c <? Z.of_nat (length (currentHandMemory c)) then
        m ← store (currentHandMemory c) (currentHandMemoryLength c) playedCard;
        Some (set_currentHandMemoryLength (wrap (currentHandMemoryLength c + 1))
                (set_currentHandMemory m c))
      else Some c
  | LevelAdvanced =>
      if allPlayedCardsMemoryLength c <? Z.of_nat (length (allPlayedCardsMemory c)) then
        m ← store (allPlayedCardsMemory c) (allPlayedCardsMemoryLength c) playedCard;
        Some (set_allPlayedCardsMemoryLength (wrap (allPlayedCardsMemoryLength c + 1))
                (set_allPlayedCardsMemory m c))
      else Some c
  | _ => Some c
  end.

(** The message that names the three hidden cards of the initial pile. *)
Definition announceHidden (hidden : list Slot) (c : Casino) : option Casino :=
  h0 ← index hidden 0; f0 ← GetFace h0;
  h1 ← index hidden 1; f1 ← GetFace h1;
  h2 ← index hidden 2; f2 ← GetFace h2;
  Some (set_initialPileCaptureMsg (hiddenMsg f0 f1 f2) c).

(** The capture branch of [processTurn], entered once the played card is
    on the pile and captures it. *)
Definition capture (topFace secondFace : string) (secondToTopCard : Slot)
    (playerID : PlayerID) (c : Casino) : option Casino :=
  let c := if bool_decide (playerID = Player) && String.eqb topFace "Jack"
           then set_safeDiscardCandidate secondToTopCard c else c in
  c ← match initialHiddenCards c with
      | Some hidden =>
          c ← (if bool_decide (playerID = Player) then announceHidden hidden c
               else Some c);
          Some (set_initialHiddenCards None c)
      | None => Some c
      end;
  '(points, cardsCollected) ←
     (if (cardsOnTable c =? 2) && String.eqb topFace secondFace then
        if String.eqb topFace "Jack" then Some (20, 2) else Some (10, 2)
      else p ← pointCalculator c; Some (p, cardsOnTable c));
  let c := if bool_decide (playerID = Player)
           then set_cardsCollectedByPlayer (wrap (cardsCollectedByPlayer c + cardsCollected))
                  (set_playerPoint (wrap (playerPoint c + points)) c)
           else set_cardsCollectedByCPU (wrap (cardsCollectedByCPU c + cardsCollected))
                  (set_cpuPoint (wrap (cpuPoint c + points)) c) in
  Some (set_lastScorer playerID (set_gameState StatePileCaptured c)).

Definition passTurn (playerID : PlayerID) (c : Casino) : Casino :=
  if bool_decide (playerID = Player) then set_gameState StateCPUTurn c
  else set_gameState StatePlayerTurn c.

Definition processTurn (playedCard : Slot) (playerID : PlayerID) (c : Casino)
  : option Casino :=
  if isNil playedCard then Some c else
  c ← remember playedCard c;
  t ← store (tableCards c) (cardsOnTable c) playedCard;
  let c := set_cardsOnTable (wrap (cardsOnTable c + 1)) (set_tableCards t c) in
  if 1 <? cardsOnTable c then
    topCardOnTable ← index (tableCards c) (cardsOnTable c - 1);
    secondToTopCard ← index (tableCards c) (cardsOnTable c - 2);
    topFace ← GetFace topCardOnTable;
    secondFace ← GetFace secondToTopCard;
    if String.eqb topFace secondFace || String.eqb topFace "Jack"
    then capture topFace secondFace secondToTopCard playerID c
    else Some (passTurn playerID c)
  else Some (passTurn playerID c).

(** ** The player's move *)

Definition takeSnapshot (c : Casino) : option UndoState.t :=
  undoTableCards ← sliceTo (tableCards c) (cardsOnTable c);
  let undoPlayerCards := copy (replicate (Z.to_nat HandSize) None) (playerCards c) in
  let undoCPUCards := copy (replicate (Z.to_nat HandSize) None) (cpuCards c) in
  undoHandMemory ← sliceTo (currentHandMemory c) (currentHandMemoryLength c);
  Some {| UndoState.playerPoint := playerPoint c;
          UndoState.cpuPoint := cpuPoint c;
          UndoState.lastScorer := lastScorer c;
          UndoState.cardsCollectedByPlayer := cardsCollectedByPlayer c;
          UndoState.cardsCollectedByCPU := cardsCollectedByCPU c;
          UndoState.cardsOnTable := cardsOnTable c;
          UndoState.tableCards := undoTableCards;
          UndoState.playerCards := undoPlayerCards;
          UndoState.cpuCards := undoCPUCards;
          UndoState.isInitialPile := isInitialPile c;
          UndoState.initialHiddenCards := initialHiddenCards c;
          UndoState.safeDiscardCandidate := safeDiscardCandidate c;
          UndoState.currentHandMemory := undoHandMemory;
          UndoState.currentHandMemoryLength := currentHandMemoryLength c |}.

Definition playerPlays (playedCardIdx : Z) (c : Casino) : option Casino :=
  c ← (if bool_decide (level c ≠ LevelAdvanced)
       then u ← takeSnapshot c; Some (set_undoState u c)
       else Some c);
  playerPlayedCard ← index (playerCards c) playedCardIdx;
  if isNil playerPlayedCard then Some c else
  let c := set_lastPlayedPlayerCard playedCardIdx c in
  h ← store (playerCards c) playedCardIdx None;
  c ← processTurn playerPlayedCard Player (set_playerCards h c);
  Some (if isInitialPile c then set_isInitialPile false c else c).

(** ** The computer's choice of a card *)

(** [for i, card := range xs { if p card { return i } }; return -1]. *)
Fixpoint rangeFind (p : Slot → bool) (i : Z) (xs : list Slot) : Z :=
  match xs with
  | [] => -1
  | card :: rest => if p card then i else rangeFind p (i + 1) rest
  end.

Definition hasFace (f : string) (card : Slot) : bool :=
  match card with Some k => String.eqb (face k) f | None => false end.

Definition findMatchingCard (f : string) (c : Casino) : Z :=
  rangeFind (hasFace f) 0 (cpuCards c).

Definition findJack (c : Casino) : Z := rangeFind (hasFace "Jack") 0 (cpuCards c).

Definition nonJack (card : Slot) : bool :=
  match card with Some k => negb (String.eqb (face k) "Jack") | None => false end.

Definition findRandomNonJack (c : Casino) : option (Z * Rand) :=
  cardsToPlay ← for_range (Z.to_nat HandSize) 0 (λ i acc,
                   card ← index (cpuCards c) i;
                   Some (if nonJack card then acc ++ [i] else acc)) [];
  if 0 <? Z.of_nat (length cardsToPlay) then
    '(k, r) ← Intn (Z.of_nat (length cardsToPlay)) (rng c);
    i ← index cardsToPlay k;
    Some (i, r)
  else Some (-1, rng c).

Definition tryCaptureMove (c : Casino) : option Z :=
  if 0 <? cardsOnTable c then
    top ← index (tableCards c) (cardsOnTable c - 1);
    topCardFace ← GetFace top;
    let cardIdx := findMatchingCard topCardFace c in
    if negb (cardIdx =? -1) then Some cardIdx else
    let cardIdx := findJack c in
    if negb (cardIdx =? -1) then Some cardIdx else Some (-1)
  else Some (-1).

Definition trySafeDiscard (c : Casino) : Z :=
  match safeDiscardCandidate c with
  | Some k =>
      let cardIdx := findMatchingCard (face k) c in
      if negb (cardIdx =? -1) then cardIdx else -1
  | None => -1
  end.

Definition cpuActionBeginner (c : Casino) : option Z :=
  cardIdx ← tryCaptureMove c;
  if negb (cardIdx =? -1) then Some cardIdx else Some (-1).

(** A Go [map[string]int]: reading a missing key yields 0. *)
Definition counts := string → Z.
Definition bump (f : string) (m : counts) : counts :=
  λ g, if String.eqb g f then wrap (m f + 1) else m g.
Definition countNonJack (m : counts) (card : Slot) : counts :=
  match card with
  | Some k => if negb (String.eqb (face k) "Jack") then bump (face k) m else m
  | None => m
  end.

Definition cpuActionIntermediate (c : Casino) : option Z :=
  cardIdx ← tryCaptureMove c;
  if negb (cardIdx =? -1) then Some cardIdx else
  let cardIdx := trySafeDiscard c in
  if negb (cardIdx =? -1) then Some cardIdx else
  let faceCounts := fold_left countNonJack (cpuCards c) (λ _, 0) in
  faceCounts ← for_range (Z.to_nat (currentHandMemoryLength c)) 0 (λ i m,
                  card ← index (currentHandMemory c) i;
                  Some (countNonJack m card)) faceCounts;
  let '(mostCommonFace, maxCount) :=
    fold_left (λ '(mostCommonFace, maxCount) card,
      match card with
      | Some k =>
          let count := faceCounts (face k) in
          if maxCount <? count then (face k, count) else (mostCommonFace, maxCount)
      | None => (mostCommonFace, maxCount)
      end) (cpuCards c) (EmptyString, 1) in
  if negb (String.eqb mostCommonFace EmptyString) then Some (findMatchingCard mostCommonFace c)
  else Some (-1).

(** The "match number" of the card in slot [i] of the computer's hand. *)
Definition matchNumber (i : Z) (k : Card) (c : Casino) : option Z :=
  n ← for_range (Z.to_nat (allPlayedCardsMemoryLength c)) 0 (λ j n,
         m ← index (allPlayedCardsMemory c) j;
         Some (if hasFace (face k) m then wrap (n + 1) else n)) 0;
  for_range (Z.to_nat HandSize) 0 (λ j n,
    if i =? j then Some n else
    other ← index (cpuCards c) j;
    Some (if hasFace (face k) other then wrap (n + 1) else n)) n.

Definition cpuActionAdvanced (c : Casino) : option Z :=
  cardIdx ← tryCaptureMove c;
  if negb (cardIdx =? -1) then Some cardIdx else
  let cardIdx := trySafeDiscard c in
  if negb (cardIdx =? -1) then Some cardIdx else
  '(greatestMatchNumber, cardToPlay) ←
     for_range (Z.to_nat HandSize) 0 (λ i '(greatest, cardToPlay),
       card ← index (cpuCards c) i;
       match card with
       | Some k =>
           if negb (String.eqb (face k) "Jack") then
             n ← matchNumber i k c;
             Some (if greatest <? n then (n, i) else (greatest, cardToPlay))
           else Some (greatest, cardToPlay)
       | None => Some (greatest, cardToPlay)
       end) (0, -1);
  if negb (greatestMatchNumber =? 0) && negb (cardToPlay =? -1) then Some cardToPlay else
  let '(_, cardToPlay, _) :=
    fold_left (λ '(leastValue, cardToPlay, i) card,
      if nonJack card then
        let value := getCardValue card in
        if value <? leastValue then (value, i, i + 1) else (leastValue, cardToPlay, i + 1)
      else (leastValue, cardToPlay, i + 1)) (cpuCards c) (100, -1, 0) in
  if negb (cardToPlay =? -1) then Some cardToPlay else Some (-1).

Definition CPUaction (c : Casino) : option (Z * Rand) :=
  cardIdx ← match level c with
            | LevelBeginner => cpuActionBeginner c
            | LevelIntermediate => cpuActionIntermediate c
            | LevelAdvanced => cpuActionAdvanced c
            | LevelNotSelected => Some (-1)
            end;
  if cardIdx =? -1 then
    '(cardIdx, r) ← findRandomNonJack c;
    if negb (cardIdx =? -1) then Some (cardIdx, r) else
    let i := rangeFind (λ card, negb (isNil card)) 0 (cpuCards c) in
    if negb (i =? -1) then Some (i, r) else Some (cardIdx, r)
  else Some (cardIdx, rng c).

(** ** The computer's move *)

(** [for i := lo; i < lo + n; i++ { if cards[i] != nil { return i } }]. *)
Fixpoint firstHeld (n : nat) (i : Z) (cards : list Slot) : option (option Z) :=
  match n with
  | O => Some None
  | S n' =>
      card ← index cards i;
      if isNil card then firstHeld n' (i + 1) cards else Some (Some i)
  end.

Definition cpuPlays (c : Casino) : option Casino :=
  let hasCards := existsb (λ card, negb (isNil card)) (cpuCards c) in
  if negb hasCards then Some c else
  '(idx, r) ← CPUaction c;
  let c := set_lastPlayedCPUCardIdx idx (set_rng r c) in
  c ← (if lastPlayedCPUCardIdx c =? -1 then
         found ← firstHeld (Z.to_nat HandSize) 0 (cpuCards c);
         Some (if found is Some i then set_lastPlayedCPUCardIdx i c else c)
       else Some c);
  cpuPlayedCard ← index (cpuCards c) (lastPlayedCPUCardIdx c);
  if isNil cpuPlayedCard then Some c else
  h ← store (cpuCards c) (lastPlayedCPUCardIdx c) None;
  c ← processTurn cpuPlayedCard CPU (set_cpuCards h c);
  Some (set_canUndo true c).

(** ** Capture pause, end of hand, end of game *)

Definition finalizeCapture (c : Casino) : Casino :=
  let c := set_cardsOnTable 0 c in
  if bool_decide (gameState c ≠ StateGameOver) then set_gameState StatePlayerTurn c
  else c.

Definition isHandFinished (c : Casino) : bool :=
  forallb isNil (playerCards c).

Definition awardFinalPile (c : Casino) : option Casino :=
  if cardsOnTable c <=? 0 then Some c else
  pointsFromLastPile ← pointCalculator c;
  let c := if bool_decide (lastScorer c = Player)
           then set_cardsCollectedByPlayer (wrap (cardsCollectedByPlayer c + cardsOnTable c))
                  (set_playerPoint (wrap (playerPoint c + pointsFromLastPile)) c)
           else set_cardsCollectedByCPU (wrap (cardsCollectedByCPU c + cardsOnTable c))
                  (set_cpuPoint (wrap (cpuPoint c + pointsFromLastPile)) c) in
  Some (set_cardsOnTable 0 c).

Definition handleEndOfGame (c : Casino) : option Casino :=
  c ← awardFinalPile c;
  let c := set_gameState StateGameOver c in
  Some (if cardsCollectedByCPU c <? cardsCollectedByPlayer c
        then set_playerPoint (wrap (playerPoint c + 3)) c
        else if cardsCollectedByPlayer c <? cardsCollectedByCPU c
        then set_cpuPoint (wrap (cpuPoint c + 3)) c
        else c).

Definition handleEndOfHand (c : Casino) : option Casino :=
  c ← deal c;
  Some (set_gameState StatePlayerTurn c).

Definition checkEndOfHand (c : Casino) : option Casino :=
  if bool_decide (gameState c = StateGameOver) then Some c else
  if isHandFinished c then
    if currentCard c =? DeckSize then handleEndOfGame c else handleEndOfHand c
  else Some c.

(** ** Undo *)

(** The run of held cards at the head of [xs] is set to nil. *)
Fixpoint clearRun (xs : list Slot) : list Slot :=
  match xs with
  | Some _ :: rest => None :: clearRun rest
  | _ => xs
  end.

(** [for i := n; i < len(xs); i++ { if xs[i] == nil { break }; xs[i] = nil }]:
    a negative [n] panics on the first read. *)
Definition clearFrom (xs : list Slot) (n : Z) : option (list Slot) :=
  if n <? 0 then None
  else Some (take (Z.to_nat n) xs ++ clearRun (drop (Z.to_nat n) xs)).

Definition undoImplementation (c : Casino) : option (bool * Casino) :=
  if negb (canUndo c) then Some (false, c) else
  let u := undoState c in
  let c := set_playerPoint (UndoState.playerPoint u) c in
  let c := set_cpuPoint (UndoState.cpuPoint u) c in
  let c := set_lastScorer (UndoState.lastScorer u) c in
  let c := set_cardsCollectedByPlayer (UndoState.cardsCollectedByPlayer u) c in
  let c := set_cardsCollectedByCPU (UndoState.cardsCollectedByCPU u) c in
  let c := set_cardsOnTable (UndoState.cardsOnTable u) c in
  let c := set_tableCards (copy (tableCards c) (UndoState.tableCards u)) c in
  t ← clearFrom (tableCards c) (cardsOnTable c);
  let c := set_tableCards t c in
  let c := set_playerCards (copy (playerCards c) (UndoState.playerCards u)) c in
  let c := set_cpuCards (copy (cpuCards c) (UndoState.cpuCards u)) c in
  let c := set_initialHiddenCards (UndoState.initialHiddenCards u) c in
  let c := set_safeDiscardCandidate (UndoState.safeDiscardCandidate u) c in
  let c := set_isInitialPile (UndoState.isInitialPile u) c in
  let c := set_currentHandMemoryLength (UndoState.currentHandMemoryLength u) c in
  let c := set_currentHandMemory (copy (currentHandMemory c) (UndoState.currentHandMemory u)) c in
  m ← clearFrom (currentHandMemory c) (currentHandMemoryLength c);
  let c := set_currentHandMemory m c in
  Some (true, set_canUndo false c).

(** ** What the driver reads ([audio.go])

    [updateUI] enables the undo button in the two turn states when
    [c.level != LevelAdvanced && c.canUndo]. *)
Definition undoButtonEnabled (c : Casino) : bool :=
  match gameState c with
  | StatePlayerTurn | StateCPUTurn =>
      bool_decide (level c ≠ LevelAdvanced) && canUndo c
  | _ => false
  end.

(** * Definitions used to state the properties *)

(** ** Hands, piles and the scoring table *)

(** A slot that holds a card. *)
Definition notNil (p : Slot) : Prop := p ≠ None.

(** The number of cards held in a hand. *)
Fixpoint held (xs : list Slot) : Z :=
  match xs with
  | [] => 0
  | Some _ :: rest => 1 + held rest
  | None :: rest => held rest
  end.

(** The scoring table in the words of the specification: one point per
    Jack, one per Ace, two for the Two of Clubs, three for the Ten of
    Diamonds, nothing for any other card. *)
Definition cardPoints (k : Card) : Z :=
  if String.eqb (face k) "Jack" then 1
  else if String.eqb (face k) "Ace" then 1
  else if String.eqb (face k) "Deuce" && String.eqb (suit k) "Clubs" then 2
  else if String.eqb (face k) "Ten" && String.eqb (suit k) "Diamonds" then 3
  else 0.

(** The sum of the table over a pile. *)
Definition pileScore (pile : list Card) : Z :=
  foldr (λ k acc, cardPoints k + acc) 0 pile.

(** The pile of an engine state: the first [cardsOnTable] table slots. *)
Definition pile (c : Casino) : list Slot :=
  take (Z.to_nat (cardsOnTable c)) (tableCards c).

(** ** Well-formed states

    The hidden-card tracker is nil or holds three cards. *)
Definition HiddenOK (h : option (list Slot)) : Prop :=
  match h with
  | None => True
  | Some l => length l = 3%nat ∧ Forall notNil l
  end.

(** A snapshot is either the zero value of the struct or a copy of a
    well-formed state taken no later than deck position [cc]. *)
Record SnapOK (cc : Z) (u : UndoState.t) : Prop := {
  snap_table_len : Z.of_nat (length (UndoState.tableCards u)) = UndoState.cardsOnTable u;
  snap_table_held : Forall notNil (UndoState.tableCards u);
  snap_mem_len :
    Z.of_nat (length (UndoState.currentHandMemory u)) = UndoState.currentHandMemoryLength u;
  snap_mem_le : UndoState.currentHandMemoryLength u <= 52;
  snap_hands :
    (UndoState.playerCards u = [] ∧ UndoState.cpuCards u = [] ∧ UndoState.cardsOnTable u = 0)
    ∨ (length (UndoState.playerCards u) = 4%nat ∧ length (UndoState.cpuCards u) = 4%nat ∧
       UndoState.cardsOnTable u + held (UndoState.playerCards u) + held (UndoState.cpuCards u) <= cc);
  snap_hidden : HiddenOK (UndoState.initialHiddenCards u)
}.

(** The invariant of a game: the slices have the lengths that [NewCasino]
    gave them, the deck is full, the cursor stands at the start of a hand,
    the pile holds cards only, and pile and hands together hold no more
    cards than have been dealt. *)
Record WF (c : Casino) : Prop := {
  wf_cpu : length (cpuCards c) = 4%nat;
  wf_player : length (playerCards c) = 4%nat;
  wf_table : length (tableCards c) = 52%nat;
  wf_mem : length (currentHandMemory c) = 52%nat;
  wf_all : length (allPlayedCardsMemory c) = 52%nat;
  wf_deck : length (deck c) = 52%nat;
  wf_deck_held : Forall notNil (deck c);
  wf_cursor : 12 <= currentCard c <= 52 ∧ (currentCard c - 12) mod 8 = 0;
  wf_count : 0 <= cardsOnTable c;
  wf_pile : Forall notNil (pile c);
  wf_bound : cardsOnTable c + held (playerCards c) + held (cpuCards c) <= currentCard c;
  wf_memlen : 0 <= currentHandMemoryLength c <= 52;
  wf_alllen : 0 <= allPlayedCardsMemoryLength c <= 52;
  wf_hidden : HiddenOK (initialHiddenCards c);
  wf_snap : SnapOK (currentCard c) (undoState c)
}.

(** ** Turns

    The game state after a play that captures nothing. *)
Definition turnOf (pid : PlayerID) : GameState :=
  match pid with Player => StateCPUTurn | _ => StatePlayerTurn end.

(** What [processTurn] needs of a state: room on the table for one more
    card, and cards in every slot that it reads. *)
Record TurnPre (c : Casino) : Prop := {
  tp_table : length (tableCards c) = 52%nat;
  tp_mem : length (currentHandMemory c) = 52%nat;
  tp_all : length (allPlayedCardsMemory c) = 52%nat;
  tp_count : 0 <= cardsOnTable c < 52;
  tp_pile : Forall notNil (pile c);
  tp_memlen : 0 <= currentHandMemoryLength c <= 52;
  tp_alllen : 0 <= allPlayedCardsMemoryLength c <= 52;
  tp_hidden : HiddenOK (initialHiddenCards c)
}.

(** What [processTurn] does to a state when [pid] plays the card [k]. *)
Record TurnPost (k : Card) (pid : PlayerID) (c c' : Casino) : Prop := {
  pt_player : playerCards c' = playerCards c;
  pt_cpu : cpuCards c' = cpuCards c;
  pt_deck : deck c' = deck c;
  pt_cursor : currentCard c' = currentCard c;
  pt_undo : undoState c' = undoState c;
  pt_canUndo : canUndo c' = canUndo c;
  pt_level : level c' = level c;
  pt_initial : isInitialPile c' = isInitialPile c;
  pt_table : tableCards c' = <[Z.to_nat (cardsOnTable c) := Some k]> (tableCards c);
  pt_count : cardsOnTable c' = cardsOnTable c + 1;
  pt_mem : length (currentHandMemory c') = 52%nat;
  pt_all : length (allPlayedCardsMemory c') = 52%nat;
  pt_memlen : 0 <= currentHandMemoryLength c' <= 52;
  pt_alllen : 0 <= allPlayedCardsMemoryLength c' <= 52;
  pt_hidden : HiddenOK (initialHiddenCards c');
  pt_outcome :
    (gameState c' = turnOf pid ∧
     cardsCollectedByPlayer c' = cardsCollectedByPlayer c ∧
     cardsCollectedByCPU c' = cardsCollectedByCPU c ∧
     playerPoint c' = playerPoint c ∧ cpuPoint c' = cpuPoint c ∧
     lastScorer c' = lastScorer c)
    ∨ (gameState c' = StatePileCaptured ∧ lastScorer c' = pid ∧
       if bool_decide (pid = Player)
       then cardsCollectedByPlayer c' = wrap (cardsCollectedByPlayer c + (cardsOnTable c + 1)) ∧
            cardsCollectedByCPU c' = cardsCollectedByCPU c
       else cardsCollectedByCPU c' = wrap (cardsCollectedByCPU c + (cardsOnTable c + 1)) ∧
            cardsCollectedByPlayer c' = cardsCollectedByPlayer c)
}.

(** The snapshot that [takeSnapshot] returns on a well-formed state. *)
Definition snapshotOf (c : Casino) : UndoState.t :=
  {| UndoState.playerPoint := playerPoint c;
     UndoState.cpuPoint := cpuPoint c;
     UndoState.lastScorer := lastScorer c;
     UndoState.cardsCollectedByPlayer := cardsCollectedByPlayer c;
     UndoState.cardsCollectedByCPU := cardsCollectedByCPU c;
     UndoState.cardsOnTable := cardsOnTable c;
     UndoState.tableCards := pile c;
     UndoState.playerCards := playerCards c;
     UndoState.cpuCards := cpuCards c;
     UndoState.isInitialPile := isInitialPile c;
     UndoState.initialHiddenCards := initialHiddenCards c;
     UndoState.safeDiscardCandidate := safeDiscardCandidate c;
     UndoState.currentHandMemory :=
       take (Z.to_nat (currentHandMemoryLength c)) (currentHandMemory c);
     UndoState.currentHandMemoryLength := currentHandMemoryLength c |}.

(** The state once [playerPlays] has saved its snapshot. *)
Definition snapshotTaken (c : Casino) : Casino :=
  if bool_decide (level c ≠ LevelAdvanced) then set_undoState (snapshotOf c) c else c.

(** The state handed to [processTurn] when the player plays slot [i]. *)
Definition playerHandsOver (i : Z) (c : Casino) : Casino :=
  set_playerCards (<[Z.to_nat i := None]> (playerCards (snapshotTaken c)))
    (set_lastPlayedPlayerCard i (snapshotTaken c)).

(** The last statement of [playerPlays]. *)
Definition endInitialPile (c : Casino) : Casino :=
  if isInitialPile c then set_isInitialPile false c else c.

(** The state handed to [processTurn] when the computer plays slot [idx]
    after its choice left the random source at [r]. *)
Definition cpuHandsOver (idx : Z) (r : Rand) (c : Casino) : Casino :=
  set_cpuCards (<[Z.to_nat idx := None]> (cpuCards c))
    (set_lastPlayedCPUCardIdx idx (set_rng r c)).

(** The state after a deal: fresh hands, the cursor eight cards further,
    and the current-hand memory and the safe-discard hint possibly reset. *)
Definition dealt (hp hc m : list Slot) (ml : Z) (sd : Slot) (c : Casino) : Casino :=
  set_currentCard (currentCard c + 8)
    (set_cpuCards hc (set_playerCards hp
      (set_currentHandMemoryLength ml (set_currentHandMemory m
        (set_safeDiscardCandidate sd c))))).

(** The state at the end of the game: the final pile credited, the
    majority bonus added. *)
Definition ended (p q a b : Z) (c : Casino) : Casino :=
  set_cpuPoint q (set_playerPoint p (set_gameState StateGameOver (set_cardsOnTable 0
    (set_cardsCollectedByCPU b (set_cardsCollectedByPlayer a c))))).

(** The player holds no card: what [isHandFinished] tests. *)
Definition handFinished (c : Casino) : Prop := held (playerCards c) = 0.

(** [dst] after [copy(dst, src)] and the loop that clears what follows
    the first [n] slots. *)
Definition copyAndClear (dst src : list Slot) (n : Z) : list Slot :=
  take (Z.to_nat n) (copy dst src) ++ clearRun (drop (Z.to_nat n) (copy dst src)).

(** The state that a successful undo leaves. *)
Definition restored (c : Casino) : Casino :=
  let u := undoState c in
  set_canUndo false
    (set_currentHandMemory
       (copyAndClear (currentHandMemory c) (UndoState.currentHandMemory u)
          (UndoState.currentHandMemoryLength u))
    (set_currentHandMemoryLength (UndoState.currentHandMemoryLength u)
    (set_isInitialPile (UndoState.isInitialPile u)
    (set_safeDiscardCandidate (UndoState.safeDiscardCandidate u)
    (set_initialHiddenCards (UndoState.initialHiddenCards u)
    (set_cpuCards (copy (cpuCards c) (UndoState.cpuCards u))
    (set_playerCards (copy (playerCards c) (UndoState.playerCards u))
    (set_tableCards
       (copyAndClear (tableCards c) (UndoState.tableCards u) (UndoState.cardsOnTable u))
    (set_cardsOnTable (UndoState.cardsOnTable u)
    (set_cardsCollectedByCPU (UndoState.cardsCollectedByCPU u)
    (set_cardsCollectedByPlayer (UndoState.cardsCollectedByPlayer u)
    (set_lastScorer (UndoState.lastScorer u)
    (set_cpuPoint (UndoState.cpuPoint u)
    (set_playerPoint (UndoState.playerPoint u) c)))))))))))))).

(** What [StartGame] leaves when it starts a game from the state [c]. *)
Record Started (c c' : Casino) : Prop := {
  st_wf : WF c';
  st_table : cardsOnTable c' = 4;
  st_cursor : currentCard c' = 12;
  st_collP : cardsCollectedByPlayer c' = 0;
  st_collC : cardsCollectedByCPU c' = 0;
  st_player : held (playerCards c') = 4;
  st_cpu : held (cpuCards c') = 4;
  st_state : gameState c' = StatePlayerTurn;
  st_level : level c' = level c;
  st_canUndo : canUndo c' = canUndo c;
  st_undo : undoState c' = undoState c
}.

(** ** Games

    The operations that the driver issues during a game. *)
Inductive Op :=
  | OpPlayerPlays (i : Z)
  | OpCpuPlays
  | OpFinalizeCapture
  | OpCheckEndOfHand
  | OpUndo.

(** One operation on a state; [None] is a panic. *)
Definition run (o : Op) (c : Casino) : option Casino :=
  match o with
  | OpPlayerPlays i => playerPlays i c
  | OpCpuPlays => cpuPlays c
  | OpFinalizeCapture => Some (finalizeCapture c)
  | OpCheckEndOfHand => checkEndOfHand c
  | OpUndo => r ← undoImplementation c; Some (snd r)
  end.

(** A sequence of operations. *)
Fixpoint runAll (os : list Op) (c : Casino) : option Casino :=
  match os with
  | [] => Some c
  | o :: rest => c' ← run o c; runAll rest c'
  end.

(** A fresh engine, a level chosen, the game started. *)
Definition startAt (r : Rand) (l : Z) : option Casino :=
  match StartGame (SetLevel l (NewCasino r)) with
  | Some (true, c) => Some c
  | _ => None
  end.

(** The states of one game: a fresh engine started at one of the three
    levels, then any sequence of the five operations that does not panic. *)
Inductive reachable : Casino → Prop :=
  | reach_start r l c :
      1 <= l <= 3 → startAt r l = Some c → reachable c
  | reach_step o c c' :
      reachable c → run o c = Some c' → reachable c'.

(** A random source that always draws 0: the shuffle then rotates the
    fresh deck by one card. *)
Definition zeros : Rand := mkRand (λ _, 0) 0.

(** Some cards of the deck, with the identifiers that [NewCasino] gives. *)
Definition aceOfHearts : Card := NewCard "Ace" "Hearts" "1".
Definition jackOfSpades : Card := NewCard "Jack" "Spades" "50".
Definition twoOfClubs : Card := NewCard "Deuce" "Clubs" "28".
Definition tenOfDiamonds : Card := NewCard "Ten" "Diamonds" "23".
Definition sevenOfHearts : Card := NewCard "Seven" "Hearts" "7".
Definition sevenOfSpades : Card := NewCard "Seven" "Spades" "46".

(** An engine whose table pile is exactly the given cards. *)
Definition withPile (cards : list Card) : Casino :=
  set_cardsOnTable (Z.of_nat (length cards))
    (set_tableCards ((Some <$> cards) ++ replicate (52 - length cards) None)
       (NewCasino zeros)).

(** The score and the collection count of the side that plays. *)
Definition scoreOf (pid : PlayerID) (c : Casino) : Z :=
  if bool_decide (pid = Player) then playerPoint c else cpuPoint c.
Definition collectedOf (pid : PlayerID) (c : Casino) : Z :=
  if bool_decide (pid = Player) then cardsCollectedByPlayer c else cardsCollectedByCPU c.

(** The played card [k] captures a pile whose top card is [k2]. *)
Definition captures (k k2 : Card) : bool :=
  String.eqb (face k) (face k2) || String.eqb (face k) "Jack".


(** A fresh engine with random source [r], started at level [l], then the
    operations [os] in order. *)
Definition play (r : Rand) (l : Z) (os : list Op) : option Casino :=
  c ← startAt r l; runAll os c.

(** What an undo has to give back: the hands, the table pile, the scores,
    the collection counts and the current-hand memory. *)
Definition undoView (c : Casino) :=
  (playerCards c, cpuCards c, (pile c, cardsOnTable c),
   (playerPoint c, cpuPoint c),
   (cardsCollectedByPlayer c, cardsCollectedByCPU c),
   (take (Z.to_nat (currentHandMemoryLength c)) (currentHandMemory c),
    currentHandMemoryLength c)).

(** The states of an engine over its whole life: a fresh engine, then any
    sequence of [SetLevel], [StartGame], [ResetGame] and the operations of
    a game. *)
Inductive lifetime : Casino → Prop :=
  | life_new r : lifetime (NewCasino r)
  | life_level l c : lifetime c → lifetime (SetLevel l c)
  | life_start c b c' : lifetime c → StartGame c = Some (b, c') → lifetime c'
  | life_reset c c' : lifetime c → ResetGame c = Some c' → lifetime c'
  | life_run o c c' : lifetime c → run o c = Some c' → lifetime c'.

(** What [resetGameInternal] leaves. *)
Record Cleared (c' : Casino) : Prop := {
  cl_state : gameState c' = StateNotStarted;
  cl_level : level c' = LevelNotSelected;
  cl_table : cardsOnTable c' = 0;
  cl_cursor : currentCard c' = 0;
  cl_player : held (playerCards c') = 0;
  cl_cpu : held (cpuCards c') = 0;
  cl_scores : playerPoint c' = 0 ∧ cpuPoint c' = 0;
  cl_collected : cardsCollectedByPlayer c' = 0 ∧ cardsCollectedByCPU c' = 0;
  cl_canUndo : canUndo c' = false
}.

(** Undealt cards, cards in both hands, cards on the table, cards collected
    by either side. *)
Definition cardSum (c : Casino) : Z :=
  (52 - currentCard c) + held (playerCards c) + held (cpuCards c) + cardsOnTable c
  + cardsCollectedByPlayer c + cardsCollectedByCPU c.

(** While a capture waits to be finalised the captured pile is still
    counted on the table, although it has been credited already. *)
Definition capturedPile (c : Casino) : Z :=
  if bool_decide (gameState c = StatePileCaptured) then cardsOnTable c else 0.

(** The states of a game in which the driver keeps to the engine's
    sequencing contract and does not undo: no play and no end-of-hand check
    while a capture waits to be finalised, [finalizeCapture] only then, and
    the end-of-hand check on a finished hand only once the computer's hand
    is empty as well. *)
Inductive driven : Casino → Prop :=
  | driven_start r l c :
      1 <= l <= 3 → startAt r l = Some c → driven c
  | driven_player i c c' :
      driven c → gameState c ≠ StatePileCaptured →
      playerPlays i c = Some c' → driven c'
  | driven_cpu c c' :
      driven c → gameState c ≠ StatePileCaptured →
      cpuPlays c = Some c' → driven c'
  | driven_finalize c :
      driven c → gameState c = StatePileCaptured → driven (finalizeCapture c)
  | driven_check c c' :
      driven c → gameState c ≠ StatePileCaptured →
      (handFinished c → held (cpuCards c) = 0) →
      checkEndOfHand c = Some c' → driven c'.

(** The conservation invariant of the [driven] states. *)
Record Conserved (c : Casino) : Prop := {
  cv_player : 0 <= cardsCollectedByPlayer c;
  cv_cpu : 0 <= cardsCollectedByCPU c;
  cv_sum : cardSum c = 52 + capturedPile c
}.

(** * Properties *)

(** ** Basic facts about the slice and integer operations *)

Lemma wrap_small z : - 2 ^ 63 <= z < 2 ^ 63 → wrap z = z.
Proof.
  intros H. unfold wrap.
  rewrite Z.mod_small by lia. lia.
Qed.

Lemma index_Some {A} (xs : list A) i x :
  index xs i = Some x ↔ 0 <= i ∧ xs !! Z.to_nat i = Some x.
Proof.
  unfold index. destruct (Z.leb_spec 0 i); split; intros H'.
  - auto.
  - tauto.
  - discriminate.
  - lia.
Qed.

Lemma index_in_range {A} (xs : list A) i :
  0 <= i < Z.of_nat (length xs) → ∃ x, index xs i = Some x ∧ xs !! Z.to_nat i = Some x.
Proof.
  intros H. destruct (lookup_lt_is_Some_2 xs (Z.to_nat i)) as [x Hx]; [lia|].
  exists x. split; [|done]. apply index_Some. split; [lia|done].
Qed.

Lemma index_None_out {A} (xs : list A) i :
  ¬ (0 <= i < Z.of_nat (length xs)) → index xs i = None.
Proof.
  intros H. unfold index. destruct (Z.leb_spec 0 i); [|done].
  apply lookup_ge_None. lia.
Qed.

Lemma store_in_range {A} (xs : list A) i v :
  0 <= i < Z.of_nat (length xs) → store xs i v = Some (<[Z.to_nat i := v]> xs).
Proof.
  intros H. unfold store.
  destruct (Z.leb_spec 0 i); [|lia].
  destruct (Z.ltb_spec i (Z.of_nat (length xs))); [done|lia].
Qed.

Lemma store_Some {A} (xs ys : list A) i v :
  store xs i v = Some ys →
  0 <= i < Z.of_nat (length xs) ∧ ys = <[Z.to_nat i := v]> xs.
Proof.
  unfold store.
  destruct (Z.leb_spec 0 i); destruct (Z.ltb_spec i (Z.of_nat (length xs)));
    simpl; intros H'; inversion H'; split; (lia || done).
Qed.

Lemma store_length {A} (xs ys : list A) i v :
  store xs i v = Some ys → length ys = length xs.
Proof. intros [_ ->]%store_Some. apply length_insert. Qed.

Lemma sliceTo_in_range {A} (xs : list A) n :
  0 <= n <= Z.of_nat (length xs) → sliceTo xs n = Some (take (Z.to_nat n) xs).
Proof.
  intros H. unfold sliceTo.
  destruct (Z.leb_spec 0 n); [|lia].
  destruct (Z.leb_spec n (Z.of_nat (length xs))); [done|lia].
Qed.

Lemma copy_same_length {A} (dst src : list A) :
  length src = length dst → copy dst src = src.
Proof.
  intros H. unfold copy. rewrite H, drop_all, app_nil_r.
  apply take_ge. lia.
Qed.

Lemma copy_nil {A} (dst : list A) : copy dst [] = dst.
Proof. unfold copy. by rewrite take_nil. Qed.

Lemma copy_length {A} (dst src : list A) : length (copy dst src) = length dst.
Proof. unfold copy. rewrite length_app, length_take, length_drop. lia. Qed.

Lemma copy_prefix {A} (dst src : list A) :
  (length src <= length dst)%nat → take (length src) (copy dst src) = src.
Proof.
  intros H. unfold copy. rewrite (take_ge src) by lia.
  by rewrite take_app_length.
Qed.

(** A loop invariant rule for [for_range]: an invariant that every
    iteration keeps, and that lets every iteration run, holds at the end. *)
Lemma for_range_inv {St} (P : Z → St → Prop) body n lo (s : St) :
  (∀ i t, lo <= i < lo + Z.of_nat n → P i t → ∃ t', body i t = Some t' ∧ P (i + 1) t') →
  P lo s →
  ∃ s', for_range n lo body s = Some s' ∧ P (lo + Z.of_nat n) s'.
Proof.
  revert lo s. induction n as [|n IH]; intros lo s Hstep H0; simpl.
  - exists s. split; [done|]. by replace (lo + Z.of_nat 0) with lo by lia.
  - destruct (Hstep lo s) as (t & -> & Ht); [lia|done|]. simpl.
    destruct (IH (lo + 1) t) as (s' & Hs' & HP).
    + intros i u Hi Hu. apply Hstep; [lia|done].
    + done.
    + exists s'. split; [done|].
      by replace (lo + Z.of_nat (S n)) with (lo + 1 + Z.of_nat n) by lia.
Qed.

(** ** Counting the cards held in a hand *)

Lemma held_nonneg xs : 0 <= held xs.
Proof. induction xs as [|[?|] xs IH]; simpl; lia. Qed.

Lemma held_le_length xs : held xs <= Z.of_nat (length xs).
Proof. induction xs as [|[?|] xs IH]; cbn [held length]; lia. Qed.

Lemma held_all xs : Forall notNil xs → held xs = Z.of_nat (length xs).
Proof.
  induction 1 as [|[?|] xs Hx _ IH]; cbn [held length]; [done| lia |].
  by destruct Hx.
Qed.

Lemma held_take_card xs i k :
  xs !! i = Some (Some k) → held (<[i := None]> xs) = held xs - 1.
Proof.
  revert i. induction xs as [|x xs IH]; intros [|i] H; try done.
  - inversion H; subst. cbn. lia.
  - change (<[S i := None]> (x :: xs)) with (x :: <[i := None]> xs).
    cbn [held]. rewrite (IH i H). destruct x; lia.
Qed.

Lemma held_zero_finished xs : forallb isNil xs = true ↔ held xs = 0.
Proof.
  induction xs as [|[?|] xs IH]; simpl; [done| |tauto].
  pose proof (held_nonneg xs). split; [done|lia].
Qed.

Lemma held_zero_no_cards xs :
  existsb (λ card, negb (isNil card)) xs = false ↔ held xs = 0.
Proof.
  induction xs as [|[?|] xs IH]; simpl; [done| |tauto].
  pose proof (held_nonneg xs). split; [done|lia].
Qed.

Lemma held_lookup_pos xs i k : xs !! i = Some (Some k) → 1 <= held xs.
Proof.
  revert i. induction xs as [|x xs IH]; intros [|i] H; try done.
  - inversion H; subst. pose proof (held_nonneg xs). cbn [held]. lia.
  - specialize (IH i H). cbn [held]. destruct x; lia.
Qed.

Lemma Forall_notNil_lookup xs i x : Forall notNil xs → xs !! i = Some x → ∃ k, x = Some k.
Proof.
  intros HF Hl. eapply Forall_lookup_1 in HF; [|done].
  destruct x; [eauto|by destruct HF].
Qed.

(** ** The scoring table: [pointCalculator] computes [pileScore] *)

Lemma cardPoints_range k : 0 <= cardPoints k <= 3.
Proof. unfold cardPoints. repeat case_match; lia. Qed.

Lemma pileScore_range p : 0 <= pileScore p <= 3 * Z.of_nat (length p).
Proof.
  induction p as [|k p IH]; cbn [pileScore foldr length]; [lia|].
  fold (pileScore p). pose proof (cardPoints_range k). lia.
Qed.

Lemma pileScore_app p q : pileScore (p ++ q) = pileScore p + pileScore q.
Proof.
  induction p as [|k p IH]; cbn [pileScore foldr app]; [done|].
  fold (pileScore (p ++ q)) (pileScore p). lia.
Qed.

Lemma pileScore_perm p q : p ≡ₚ q → pileScore p = pileScore q.
Proof.
  induction 1 as [|k p q _ IH|j k p|p q r _ IH1 _ IH2]; cbn [pileScore foldr].
  - done.
  - fold (pileScore p) (pileScore q). lia.
  - lia.
  - congruence.
Qed.

(** One iteration of the loop of [pointCalculator] on a held card. *)
Lemma pointCalculator_step (k : Card) (point : Z) :
  0 <= point <= 3 * 52 →
  (f ← GetFace (Some k);
   if String.eqb f "Jack" then Some (wrap (point + 1))
   else if String.eqb f "Ace" then Some (wrap (point + 1))
   else if String.eqb f "Deuce" then
     s ← GetSuit (Some k);
     if String.eqb s "Clubs" then Some (wrap (point + 2)) else Some point
   else if String.eqb f "Ten" then
     s ← GetSuit (Some k);
     if String.eqb s "Diamonds" then Some (wrap (point + 3)) else Some point
   else Some point) = Some (point + cardPoints k).
Proof.
  intros Hp. unfold cardPoints. cbn [GetFace GetSuit mbind option_bind].
  destruct (String.eqb (face k) "Jack"); [by rewrite wrap_small by lia|].
  destruct (String.eqb (face k) "Ace"); [by rewrite wrap_small by lia|].
  destruct (String.eqb (face k) "Deuce") eqn:Hd; cbn [andb].
  { apply String.eqb_eq in Hd. rewrite Hd. cbn [String.eqb Ascii.eqb Bool.eqb andb].
    destruct (String.eqb (suit k) "Clubs"); [by rewrite wrap_small by lia|].
    f_equal; lia. }
  destruct (String.eqb (face k) "Ten"); cbn [andb].
  { destruct (String.eqb (suit k) "Diamonds"); [by rewrite wrap_small by lia|].
    f_equal; lia. }
  f_equal; lia.
Qed.

Lemma pointCalculator_pile c (p : list Card) :
  length (tableCards c) = 52%nat → 0 <= cardsOnTable c <= 52 →
  pile c = Some <$> p →
  pointCalculator c = Some (pileScore p).
Proof.
  intros Ht Hn Hp. unfold pointCalculator.
  assert (Hlen : length p = Z.to_nat (cardsOnTable c)).
  { apply (f_equal length) in Hp. unfold pile in Hp.
    rewrite length_fmap, length_take in Hp. lia. }
  destruct (for_range_inv
    (λ i point, point = pileScore (take (Z.to_nat i) p))
    (λ i point,
      card ← index (tableCards c) i;
      f ← GetFace card;
      if String.eqb f "Jack" then Some (wrap (point + 1))
      else if String.eqb f "Ace" then Some (wrap (point + 1))
      else if String.eqb f "Deuce" then
        s ← GetSuit card;
        if String.eqb s "Clubs" then Some (wrap (point + 2)) else Some point
      else if String.eqb f "Ten" then
        s ← GetSuit card;
        if String.eqb s "Diamonds" then Some (wrap (point + 3)) else Some point
      else Some point)
    (Z.to_nat (cardsOnTable c)) 0 0) as (r & Hr & Hfin).
  - intros i point Hi ->.
    assert (Hk : ∃ k, p !! Z.to_nat i = Some k) by (apply lookup_lt_is_Some_2; lia).
    destruct Hk as [k Hk].
    assert (Hc : index (tableCards c) i = Some (Some k)).
    { apply index_Some. split; [lia|].
      assert (Hl : pile c !! Z.to_nat i = Some (Some k))
        by (rewrite Hp, list_lookup_fmap, Hk; done).
      unfold pile in Hl. apply lookup_take_Some in Hl. tauto. }
    rewrite Hc. cbn [mbind option_bind].
    pose proof (pileScore_range (take (Z.to_nat i) p)) as Hr.
    rewrite length_take in Hr.
    rewrite pointCalculator_step by lia.
    eexists. split; [done|].
    replace (Z.to_nat (i + 1)) with (S (Z.to_nat i)) by lia.
    rewrite (take_S_r _ _ _ Hk), pileScore_app.
    cbn [pileScore foldr]. lia.
  - done.
  - rewrite Hr. f_equal. rewrite Hfin.
    f_equal. apply take_ge. lia.
Qed.

Lemma notNil_cards xs : Forall notNil xs → ∃ p : list Card, xs = Some <$> p.
Proof.
  induction 1 as [|[k|] xs Hx _ [p ->]].
  - by exists [].
  - by exists (k :: p).
  - by destruct Hx.
Qed.

(** ** What a turn does to a state *)

Lemma pile_after_play xs n k :
  (n < length xs)%nat → Forall notNil (take n xs) →
  Forall notNil (take (S n) (<[n := Some k]> xs)).
Proof.
  intros Hn Hp.
  assert (Hl : <[n := Some k]> xs !! n = Some (Some k)) by by apply list_lookup_insert_eq.
  rewrite (take_S_r _ _ _ Hl), take_insert_ge by lia.
  apply Forall_app. split; [done|]. by repeat constructor.
Qed.

Lemma pointCalculator_total c :
  length (tableCards c) = 52%nat → 0 <= cardsOnTable c <= 52 → Forall notNil (pile c) →
  ∃ p, pointCalculator c = Some p.
Proof.
  intros Ht Hn Hp. destruct (notNil_cards _ Hp) as [p Hq].
  exists (pileScore p). by apply pointCalculator_pile.
Qed.

Lemma remember_spec card c :
  length (currentHandMemory c) = 52%nat → length (allPlayedCardsMemory c) = 52%nat →
  0 <= currentHandMemoryLength c <= 52 → 0 <= allPlayedCardsMemoryLength c <= 52 →
  ∃ m a ml al,
    remember card c =
      Some (set_allPlayedCardsMemoryLength al (set_allPlayedCardsMemory a
             (set_currentHandMemoryLength ml (set_currentHandMemory m c)))) ∧
    length m = 52%nat ∧ length a = 52%nat ∧ 0 <= ml <= 52 ∧ 0 <= al <= 52 ∧
    (level c ≠ LevelIntermediate → m = currentHandMemory c ∧ ml = currentHandMemoryLength c).
Proof.
  intros Hm Ha Hml Hal. unfold remember.
  assert (Hsame : c = set_allPlayedCardsMemoryLength (allPlayedCardsMemoryLength c)
                        (set_allPlayedCardsMemory (allPlayedCardsMemory c)
                          (set_currentHandMemoryLength (currentHandMemoryLength c)
                            (set_currentHandMemory (currentHandMemory c) c))))
    by (by destruct c).
  destruct (level c) eqn:Hlv.
  - do 4 eexists. split; [rewrite Hsame at 1; reflexivity|]. done.
  - do 4 eexists. split; [rewrite Hsame at 1; reflexivity|]. done.
  - rewrite Hm. destruct (Z.ltb_spec (currentHandMemoryLength c) (Z.of_nat 52)).
    + rewrite store_in_range by lia. cbn [mbind option_bind].
      exists (<[Z.to_nat (currentHandMemoryLength c) := card]> (currentHandMemory c)),
        (allPlayedCardsMemory c), (wrap (currentHandMemoryLength c + 1)),
        (allPlayedCardsMemoryLength c).
      split; [by destruct c|].
      rewrite length_insert, wrap_small by lia.
      repeat split; try (done || lia).
    + do 4 eexists. split; [rewrite Hsame at 1; reflexivity|].
      repeat split; try (done || lia).
  - rewrite Ha. destruct (Z.ltb_spec (allPlayedCardsMemoryLength c) (Z.of_nat 52)).
    + rewrite store_in_range by lia. cbn [mbind option_bind].
      exists (currentHandMemory c),
        (<[Z.to_nat (allPlayedCardsMemoryLength c) := card]> (allPlayedCardsMemory c)),
        (currentHandMemoryLength c), (wrap (allPlayedCardsMemoryLength c + 1)).
      split; [by destruct c|].
      rewrite length_insert, wrap_small by lia.
      repeat split; try (done || lia).
    + do 4 eexists. split; [rewrite Hsame at 1; reflexivity|]. done.
Qed.

Lemma HiddenOK_cards l :
  HiddenOK (Some l) → ∃ a b d : Card, l = [Some a; Some b; Some d].
Proof.
  intros [Hl Hf].
  destruct l as [|[a|] [|[b|] [|[d|] [|? ?]]]]; try discriminate;
    repeat match goal with H : Forall _ (_ :: _) |- _ => inversion_clear H end;
    try match goal with H : notNil None |- _ => by destruct H end.
  by exists a, b, d.
Qed.

(** [pointCalculator] reads the table pile and its count only. *)
Lemma pointCalculator_ext c c' :
  tableCards c' = tableCards c → cardsOnTable c' = cardsOnTable c →
  pointCalculator c' = pointCalculator c.
Proof. intros Ht Hn. unfold pointCalculator. by rewrite Ht, Hn. Qed.

Lemma announceHidden_cards a b d c :
  announceHidden [Some a; Some b; Some d] c =
  Some (set_initialPileCaptureMsg (hiddenMsg (face a) (face b) (face d)) c).
Proof. reflexivity. Qed.

(** Replaces [pointCalculator] of an updated state by its known value on
    the state [c] it was updated from. *)
Ltac score_with c H :=
  match goal with
  | |- context [pointCalculator ?x] =>
      replace (pointCalculator x) with (pointCalculator c)
        by (symmetry; apply pointCalculator_ext; reflexivity);
      rewrite H
  end.

Ltac red_state :=
  cbn -[pointCalculator announceHidden index store sliceTo wrap
        Z.add Z.sub Z.mul hiddenMsg String.append String.eqb].
Tactic Notation "red_state" "in" hyp(H) :=
  cbn -[pointCalculator announceHidden index store sliceTo wrap
        Z.add Z.sub Z.mul hiddenMsg String.append String.eqb] in H.

Lemma capture_spec tf sf second pid c :
  length (tableCards c) = 52%nat → 0 <= cardsOnTable c <= 52 →
  Forall notNil (pile c) → HiddenOK (initialHiddenCards c) →
  ∃ c', capture tf sf second pid c = Some c' ∧
    playerCards c' = playerCards c ∧ cpuCards c' = cpuCards c ∧ deck c' = deck c ∧
    currentCard c' = currentCard c ∧ undoState c' = undoState c ∧
    canUndo c' = canUndo c ∧ level c' = level c ∧ isInitialPile c' = isInitialPile c ∧
    tableCards c' = tableCards c ∧ cardsOnTable c' = cardsOnTable c ∧
    currentHandMemory c' = currentHandMemory c ∧
    allPlayedCardsMemory c' = allPlayedCardsMemory c ∧
    currentHandMemoryLength c' = currentHandMemoryLength c ∧
    allPlayedCardsMemoryLength c' = allPlayedCardsMemoryLength c ∧
    initialHiddenCards c' = None ∧
    gameState c' = StatePileCaptured ∧ lastScorer c' = pid ∧
    if bool_decide (pid = Player)
    then cardsCollectedByPlayer c' = wrap (cardsCollectedByPlayer c + cardsOnTable c) ∧
         cardsCollectedByCPU c' = cardsCollectedByCPU c
    else cardsCollectedByCPU c' = wrap (cardsCollectedByCPU c + cardsOnTable c) ∧
         cardsCollectedByPlayer c' = cardsCollectedByPlayer c.
Proof.
  intros Ht Hn Hp Hh.
  destruct (pointCalculator_total c Ht Hn Hp) as [pts Hpts].
  unfold capture.
  destruct (bool_decide (pid = Player)) eqn:Hpid;
    destruct (String.eqb tf "Jack") eqn:Hj; red_state;
    (destruct (initialHiddenCards c) as [hidden|] eqn:Hhid;
     [destruct (HiddenOK_cards _ Hh) as (a & b & d & ->)|]);
    rewrite ?announceHidden_cards; red_state;
    (destruct ((cardsOnTable c =? 2) && String.eqb tf sf) eqn:Hb; red_state;
     [apply andb_prop in Hb as [Hb%Z.eqb_eq _]
     |score_with c Hpts; red_state]);
    rewrite ?Hpid; (eexists; split; [reflexivity|]); red_state; rewrite ?Hb;
    repeat split; (reflexivity || assumption).
Qed.

Lemma index_insert_top {A} (xs : list A) n v :
  0 <= n < Z.of_nat (length xs) → index (<[Z.to_nat n := v]> xs) (n + 1 - 1) = Some v.
Proof.
  intros H. apply index_Some. split; [lia|].
  replace (n + 1 - 1) with n by lia. apply list_lookup_insert_eq. lia.
Qed.

Lemma index_insert_below (xs : list Slot) n v :
  1 <= n < Z.of_nat (length xs) → Forall notNil (take (Z.to_nat n) xs) →
  ∃ k, index (<[Z.to_nat n := v]> xs) (n + 1 - 2) = Some (Some k).
Proof.
  intros H Hp.
  destruct (lookup_lt_is_Some_2 (take (Z.to_nat n) xs) (Z.to_nat (n - 1))) as [x Hx].
  { rewrite length_take. lia. }
  destruct (Forall_notNil_lookup _ _ _ Hp Hx) as [k ->].
  exists k. apply index_Some. split; [lia|].
  replace (n + 1 - 2) with (n - 1) by lia.
  rewrite list_lookup_insert_ne by lia.
  apply lookup_take_Some in Hx. tauto.
Qed.

Lemma passTurn_state pid c : gameState (passTurn pid c) = turnOf pid.
Proof. unfold passTurn. by destruct pid. Qed.

Lemma processTurn_spec k pid c :
  TurnPre c → ∃ c', processTurn (Some k) pid c = Some c' ∧ TurnPost k pid c c'.
Proof.
  intros [Ht Hm Ha Hn Hp Hml Hal Hh]. unfold processTurn. cbn [isNil].
  destruct (remember_spec (Some k) c Hm Ha Hml Hal)
    as (m & a & ml & al & -> & Hlm & Hla & Hml' & Hal' & _).
  red_state. rewrite store_in_range by lia. red_state.
  rewrite (wrap_small (cardsOnTable c + 1)) by lia.
  assert (Hpass : ∃ c',
    Some (passTurn pid
      (set_cardsOnTable (cardsOnTable c + 1)
        (set_tableCards (<[Z.to_nat (cardsOnTable c) := Some k]> (tableCards c))
          (set_allPlayedCardsMemoryLength al (set_allPlayedCardsMemory a
            (set_currentHandMemoryLength ml (set_currentHandMemory m c))))))) = Some c'
    ∧ TurnPost k pid c c').
  { eexists. split; [reflexivity|].
    constructor; try (unfold passTurn; destruct (bool_decide _); reflexivity);
      try (unfold passTurn; destruct (bool_decide _); red_state; (done || lia)).
    left. rewrite passTurn_state.
    unfold passTurn; destruct (bool_decide _); red_state; done. }
  destruct (Z.ltb_spec 1 (cardsOnTable c + 1)) as [H1|H1]; [|exact Hpass].
  rewrite index_insert_top by lia.
  destruct (index_insert_below (tableCards c) (cardsOnTable c) (Some k)) as [k2 ->];
    [lia|done|].
  red_state.
  destruct (String.eqb (face k) (face k2) || String.eqb (face k) "Jack"); [|exact Hpass].
  match goal with
  | |- context [capture ?tf ?sf ?s ?p ?x] =>
      destruct (capture_spec tf sf s p x)
        as (c' & -> & Hpl & Hcp & Hdk & Hcc & Hun & Hcu & Hlv & Hip & Htb & Hct & Hmm &
            Hall & Hmml & Halll & Hhid & Hgs & Hls & Hcol)
  end.
  - red_state. by rewrite length_insert.
  - red_state. lia.
  - unfold pile. red_state.
    replace (Z.to_nat (cardsOnTable c + 1)) with (S (Z.to_nat (cardsOnTable c))) by lia.
    apply pile_after_play; [lia|done].
  - done.
  - exists c'. split; [done|].
    constructor;
      [by rewrite Hpl | by rewrite Hcp | by rewrite Hdk | by rewrite Hcc | by rewrite Hun
      |by rewrite Hcu | by rewrite Hlv | by rewrite Hip | by rewrite Htb | by rewrite Hct
      |by rewrite Hmm | by rewrite Hall | by rewrite Hmml | by rewrite Halll
      |by rewrite Hhid |].
    right. split; [done|]. split; [done|]. exact Hcol.
Qed.

(** ** The snapshot taken by [playerPlays] *)

Lemma WF_table_le c : WF c → cardsOnTable c <= 52.
Proof.
  intros H. pose proof (wf_bound c H). pose proof (wf_cursor c H).
  pose proof (held_nonneg (playerCards c)). pose proof (held_nonneg (cpuCards c)). lia.
Qed.

Lemma takeSnapshot_wf c : WF c → takeSnapshot c = Some (snapshotOf c).
Proof.
  intros H. pose proof (WF_table_le c H). unfold takeSnapshot.
  rewrite (sliceTo_in_range (tableCards c))
    by (rewrite (wf_table c H); pose proof (wf_count c H); lia).
  rewrite (sliceTo_in_range (currentHandMemory c))
    by (rewrite (wf_mem c H); pose proof (wf_memlen c H); lia).
  cbn [mbind option_bind].
  rewrite !copy_same_length
    by (rewrite length_replicate; first [apply (wf_player c H) | apply (wf_cpu c H)]).
  reflexivity.
Qed.

Lemma SnapOK_snapshotOf c : WF c → SnapOK (currentCard c) (snapshotOf c).
Proof.
  intros H. pose proof (WF_table_le c H).
  constructor; cbn [snapshotOf UndoState.tableCards UndoState.cardsOnTable
    UndoState.currentHandMemory UndoState.currentHandMemoryLength UndoState.playerCards
    UndoState.cpuCards UndoState.initialHiddenCards].
  - unfold pile. rewrite length_take, (wf_table c H). pose proof (wf_count c H). lia.
  - apply (wf_pile c H).
  - rewrite length_take, (wf_mem c H). pose proof (wf_memlen c H). lia.
  - apply (wf_memlen c H).
  - right. split; [apply (wf_player c H)|]. split; [apply (wf_cpu c H)|apply (wf_bound c H)].
  - apply (wf_hidden c H).
Qed.

Lemma SnapOK_mono cc cc' u : cc <= cc' → SnapOK cc u → SnapOK cc' u.
Proof.
  intros Hle [H1 H2 H3 H4 H5 H6]. constructor; try done.
  destruct H5 as [?|(?&?&?)]; [by left|right]. repeat split; (done || lia).
Qed.

(** [WF] reads these components of a state only. *)
Lemma WF_ext c c' :
  cpuCards c' = cpuCards c → playerCards c' = playerCards c →
  tableCards c' = tableCards c → currentHandMemory c' = currentHandMemory c →
  allPlayedCardsMemory c' = allPlayedCardsMemory c → deck c' = deck c →
  currentCard c' = currentCard c → cardsOnTable c' = cardsOnTable c →
  currentHandMemoryLength c' = currentHandMemoryLength c →
  allPlayedCardsMemoryLength c' = allPlayedCardsMemoryLength c →
  initialHiddenCards c' = initialHiddenCards c → undoState c' = undoState c →
  WF c → WF c'.
Proof.
  intros E1 E2 E3 E4 E5 E6 E7 E8 E9 E10 E11 E12 H.
  destruct H. constructor; unfold pile in *;
    rewrite ?E1, ?E2, ?E3, ?E4, ?E5, ?E6, ?E7, ?E8, ?E9, ?E10, ?E11, ?E12; assumption.
Qed.

(** Taking a held card out of a hand. *)
Lemma WF_take_player c i k :
  WF c → playerCards c !! i = Some (Some k) →
  WF (set_playerCards (<[i := None]> (playerCards c)) c) ∧
  held (<[i := None]> (playerCards c)) = held (playerCards c) - 1.
Proof.
  intros H Hi. pose proof (held_take_card _ _ _ Hi) as Hh. split; [|done].
  destruct H. constructor; unfold pile in *; red_state; try assumption.
  - by rewrite length_insert.
  - rewrite Hh. lia.
Qed.

Lemma WF_take_cpu c i k :
  WF c → cpuCards c !! i = Some (Some k) →
  WF (set_cpuCards (<[i := None]> (cpuCards c)) c) ∧
  held (<[i := None]> (cpuCards c)) = held (cpuCards c) - 1.
Proof.
  intros H Hi. pose proof (held_take_card _ _ _ Hi) as Hh. split; [|done].
  destruct H. constructor; unfold pile in *; red_state; try assumption.
  - by rewrite length_insert.
  - rewrite Hh. lia.
Qed.

Lemma WF_TurnPre c :
  WF c → cardsOnTable c + held (playerCards c) + held (cpuCards c) + 1 <= currentCard c →
  TurnPre c.
Proof.
  intros H Hb. pose proof (wf_cursor c H).
  pose proof (held_nonneg (playerCards c)). pose proof (held_nonneg (cpuCards c)).
  destruct H. constructor; try assumption. lia.
Qed.

(** A turn played from a well-formed state that has room for the card
    leaves a well-formed state. *)
Lemma turn_wf k pid c c' :
  WF c → cardsOnTable c + held (playerCards c) + held (cpuCards c) + 1 <= currentCard c →
  TurnPost k pid c c' → WF c'.
Proof.
  intros H Hb P. pose proof (WF_TurnPre c H Hb) as Hpre.
  destruct P. destruct H. destruct Hpre.
  constructor; unfold pile in *;
    rewrite ?pt_player0, ?pt_cpu0, ?pt_deck0, ?pt_cursor0, ?pt_undo0, ?pt_table0, ?pt_count0;
    try assumption; try lia.
  - by rewrite length_insert.
  - replace (Z.to_nat (cardsOnTable c + 1)) with (S (Z.to_nat (cardsOnTable c))) by lia.
    apply pile_after_play; [lia|done].
Qed.

(** ** The player's move on a well-formed state *)

Lemma snapshotTaken_wf c : WF c → WF (snapshotTaken c).
Proof.
  intros H. unfold snapshotTaken. destruct (bool_decide _); [|done].
  pose proof (SnapOK_snapshotOf c H).
  destruct H. constructor; unfold pile in *; red_state; assumption.
Qed.

Lemma playerPlays_snapshot i c :
  WF c →
  playerPlays i c =
    (playerPlayedCard ← index (playerCards (snapshotTaken c)) i;
     if isNil playerPlayedCard then Some (snapshotTaken c) else
     c' ← processTurn playerPlayedCard Player (playerHandsOver i c);
     Some (endInitialPile c')).
Proof.
  intros H. unfold playerPlays, playerHandsOver, endInitialPile, snapshotTaken.
  destruct (bool_decide (level c ≠ LevelAdvanced)).
  - rewrite takeSnapshot_wf by done. cbn [mbind option_bind].
    destruct (index _ i) as [[k|]|] eqn:Hi; cbn [mbind option_bind isNil]; try done.
    apply index_Some in Hi as [Hi0 Hi].
    pose proof (lookup_lt_Some _ _ _ Hi) as Hlt.
    red_state in Hlt.
    rewrite store_in_range by (red_state; lia). cbn [mbind option_bind]. reflexivity.
  - cbn [mbind option_bind].
    destruct (index _ i) as [[k|]|] eqn:Hi; cbn [mbind option_bind isNil]; try done.
    apply index_Some in Hi as [Hi0 Hi].
    pose proof (lookup_lt_Some _ _ _ Hi) as Hlt.
    red_state in Hlt.
    rewrite store_in_range by (red_state; lia). cbn [mbind option_bind]. reflexivity.
Qed.

Lemma snapshotTaken_player c : playerCards (snapshotTaken c) = playerCards c.
Proof. unfold snapshotTaken. by destruct (bool_decide _). Qed.

Lemma playerPlays_out_of_range i c :
  WF c → ¬ (0 <= i < 4) → playerPlays i c = None.
Proof.
  intros H Hi. rewrite playerPlays_snapshot by done.
  rewrite index_None_out; [done|].
  by rewrite snapshotTaken_player, (wf_player c H).
Qed.

Lemma playerPlays_empty i c :
  WF c → index (playerCards c) i = Some None → playerPlays i c = Some (snapshotTaken c).
Proof.
  intros H Hi. rewrite playerPlays_snapshot by done.
  by rewrite snapshotTaken_player, Hi.
Qed.

Lemma playerHandsOver_wf i k c :
  WF c → index (playerCards c) i = Some (Some k) →
  WF (playerHandsOver i c) ∧
  cardsOnTable (playerHandsOver i c) + held (playerCards (playerHandsOver i c)) +
    held (cpuCards (playerHandsOver i c)) + 1 <= currentCard (playerHandsOver i c).
Proof.
  intros H [Hi0 Hi]%index_Some.
  pose proof (snapshotTaken_wf c H) as H1.
  rewrite <- snapshotTaken_player in Hi.
  destruct (WF_take_player _ _ _ H1 Hi) as [H2 Hh].
  pose proof (wf_bound _ H1) as Hb.
  unfold playerHandsOver. split.
  - revert H2. apply WF_ext; reflexivity.
  - red_state. rewrite Hh. lia.
Qed.

Lemma playerPlays_held i k c :
  WF c → index (playerCards c) i = Some (Some k) →
  ∃ c', processTurn (Some k) Player (playerHandsOver i c) = Some c' ∧
        TurnPost k Player (playerHandsOver i c) c' ∧
        playerPlays i c = Some (endInitialPile c').
Proof.
  intros H Hi. destruct (playerHandsOver_wf i k c H Hi) as [H1 Hb].
  destruct (processTurn_spec k Player _ (WF_TurnPre _ H1 Hb)) as (c' & Hc' & Hpost).
  exists c'. split; [done|]. split; [done|].
  rewrite playerPlays_snapshot by done.
  rewrite snapshotTaken_player, Hi. cbn [mbind option_bind isNil].
  by rewrite Hc'.
Qed.

Lemma endInitialPile_wf c : WF c → WF (endInitialPile c).
Proof.
  unfold endInitialPile. destruct (isInitialPile c); [|done].
  apply WF_ext; reflexivity.
Qed.

Lemma playerPlays_total i c :
  WF c → 0 <= i < 4 → ∃ c', playerPlays i c = Some c'.
Proof.
  intros H Hi.
  destruct (index_in_range (playerCards c) i) as ([k|] & Hx & _).
  { by rewrite (wf_player c H). }
  - destruct (playerPlays_held i k c H Hx) as (c' & _ & _ & ->). eauto.
  - rewrite (playerPlays_empty i c H Hx). eauto.
Qed.

Lemma playerPlays_wf i c c' : WF c → playerPlays i c = Some c' → WF c'.
Proof.
  intros H Hp.
  destruct (index (playerCards c) i) as [[k|]|] eqn:Hx.
  - destruct (playerPlays_held i k c H Hx) as (c2 & _ & Hpost & Hc2).
    rewrite Hc2 in Hp. inversion Hp; subst c'.
    destruct (playerHandsOver_wf i k c H Hx) as [H1 Hb].
    apply endInitialPile_wf. by eapply turn_wf.
  - rewrite (playerPlays_empty i c H Hx) in Hp. inversion Hp; subst c'.
    by apply snapshotTaken_wf.
  - rewrite playerPlays_snapshot in Hp by done.
    by rewrite snapshotTaken_player, Hx in Hp.
Qed.

(** ** The computer's move on a well-formed state *)

Lemma cpuPlays_no_cards c : held (cpuCards c) = 0 → cpuPlays c = Some c.
Proof.
  intros H%held_zero_no_cards. unfold cpuPlays. by rewrite H.
Qed.

(** The three ways in which [cpuPlays] returns. *)
Lemma cpuPlays_cases c c' :
  cpuPlays c = Some c' →
  (held (cpuCards c) = 0 ∧ c' = c)
  ∨ (∃ idx r, index (cpuCards c) idx = Some None ∧
       c' = set_lastPlayedCPUCardIdx idx (set_rng r c))
  ∨ (∃ idx r k c2, index (cpuCards c) idx = Some (Some k) ∧
       processTurn (Some k) CPU (cpuHandsOver idx r c) = Some c2 ∧
       c' = set_canUndo true c2).
Proof.
  unfold cpuPlays.
  destruct (existsb _ (cpuCards c)) eqn:Hh; cbn [negb].
  2: { intros [= <-]. left. split; [|done]. by apply held_zero_no_cards. }
  destruct (CPUaction c) as [[idx r]|]; cbn [mbind option_bind]; [|done].
  assert (Hgen : ∀ j,
    (cpuPlayedCard ← index (cpuCards (set_lastPlayedCPUCardIdx j (set_rng r c)))
                       (lastPlayedCPUCardIdx (set_lastPlayedCPUCardIdx j (set_rng r c)));
     if isNil cpuPlayedCard then Some (set_lastPlayedCPUCardIdx j (set_rng r c)) else
     h ← store (cpuCards (set_lastPlayedCPUCardIdx j (set_rng r c)))
               (lastPlayedCPUCardIdx (set_lastPlayedCPUCardIdx j (set_rng r c))) None;
     c0 ← processTurn cpuPlayedCard CPU
             (set_cpuCards h (set_lastPlayedCPUCardIdx j (set_rng r c)));
     Some (set_canUndo true c0)) = Some c' →
    (held (cpuCards c) = 0 ∧ c' = c)
    ∨ (∃ idx r, index (cpuCards c) idx = Some None ∧
         c' = set_lastPlayedCPUCardIdx idx (set_rng r c))
    ∨ (∃ idx r k c2, index (cpuCards c) idx = Some (Some k) ∧
         processTurn (Some k) CPU (cpuHandsOver idx r c) = Some c2 ∧
         c' = set_canUndo true c2)).
  { intros j. red_state.
    destruct (index (cpuCards c) j) as [[k|]|] eqn:Hj; cbn [mbind option_bind isNil];
      [|intros [= <-]; right; left; eauto|done].
    pose proof Hj as [Hj0 Hl%lookup_lt_Some]%index_Some.
    rewrite store_in_range by lia. cbn [mbind option_bind].
    destruct (processTurn _ _ _) as [c2|] eqn:Hc2; cbn [mbind option_bind]; [|done].
    intros [= <-]. right; right. exists j, r, k, c2. eauto. }
  destruct (lastPlayedCPUCardIdx (set_lastPlayedCPUCardIdx idx (set_rng r c)) =? -1).
  - destruct (firstHeld _ _ _) as [[i|]|]; cbn [mbind option_bind]; [| |done].
    + apply (Hgen i).
    + apply (Hgen idx).
  - cbn [mbind option_bind]. apply (Hgen idx).
Qed.

Lemma cpuHandsOver_wf idx r k c :
  WF c → index (cpuCards c) idx = Some (Some k) →
  WF (cpuHandsOver idx r c) ∧
  cardsOnTable (cpuHandsOver idx r c) + held (playerCards (cpuHandsOver idx r c)) +
    held (cpuCards (cpuHandsOver idx r c)) + 1 <= currentCard (cpuHandsOver idx r c).
Proof.
  intros H [Hi0 Hi]%index_Some.
  destruct (WF_take_cpu _ _ _ H Hi) as [H2 Hh].
  pose proof (wf_bound _ H) as Hb.
  unfold cpuHandsOver. split.
  - revert H2. apply WF_ext; reflexivity.
  - red_state. rewrite Hh. lia.
Qed.

Lemma cpuPlays_turn idx r k c c2 :
  WF c → index (cpuCards c) idx = Some (Some k) →
  processTurn (Some k) CPU (cpuHandsOver idx r c) = Some c2 →
  TurnPost k CPU (cpuHandsOver idx r c) c2.
Proof.
  intros H Hi Hc2. destruct (cpuHandsOver_wf idx r k c H Hi) as [H1 Hb].
  destruct (processTurn_spec k CPU _ (WF_TurnPre _ H1 Hb)) as (c3 & Hc3 & Hpost).
  congruence.
Qed.

Lemma cpuPlays_wf c c' : WF c → cpuPlays c = Some c' → WF c'.
Proof.
  intros H [[_ ->]|[(idx & r & _ & ->)|(idx & r & k & c2 & Hi & Hc2 & ->)]]%cpuPlays_cases.
  - done.
  - revert H. apply WF_ext; reflexivity.
  - destruct (cpuHandsOver_wf idx r k c H Hi) as [H1 Hb].
    pose proof (cpuPlays_turn idx r k c c2 H Hi Hc2) as Hpost.
    pose proof (turn_wf _ _ _ _ H1 Hb Hpost) as H2.
    revert H2. apply WF_ext; reflexivity.
Qed.

(** ** Finalising a capture *)

Lemma finalizeCapture_wf c : WF c → WF (finalizeCapture c).
Proof.
  intros H. unfold finalizeCapture.
  pose proof (wf_bound c H). pose proof (wf_cursor c H).
  pose proof (held_nonneg (playerCards c)). pose proof (held_nonneg (cpuCards c)).
  pose proof (wf_count c H).
  destruct (bool_decide _); destruct H; constructor; unfold pile in *; red_state;
    try assumption; try lia; apply Forall_nil_2.
Qed.

(** ** Dealing a hand *)

Lemma deck_card c i :
  length (deck c) = 52%nat → Forall notNil (deck c) → 0 <= i < 52 →
  ∃ k, index (deck c) i = Some (Some k).
Proof.
  intros Hl Hf Hi.
  destruct (index_in_range (deck c) i) as (x & Hx & Hx'); [lia|].
  destruct (Forall_notNil_lookup _ _ _ Hf Hx') as [k ->]. eauto.
Qed.

Lemma notNil_filled (h : list Slot) n :
  length h = n → Forall notNil (take n h) → Forall notNil h.
Proof. intros <- H. by rewrite firstn_all in H. Qed.

Lemma take_insert_held (h : list Slot) i k :
  (i < length h)%nat → Forall notNil (take i h) →
  Forall notNil (take (S i) (<[i := Some k]> h)).
Proof. apply pile_after_play. Qed.

(** The loop that clears the current-hand memory. *)
Lemma clear_memory_loop c :
  length (currentHandMemory c) = 52%nat → 0 <= currentHandMemoryLength c <= 52 →
  ∃ m, for_range (Z.to_nat (currentHandMemoryLength c)) 0
         (λ i c, m ← store (currentHandMemory c) i None;
                 Some (set_currentHandMemory m c)) c
       = Some (set_currentHandMemory m c) ∧ length m = 52%nat.
Proof.
  intros Hl Hn.
  destruct (for_range_inv
    (λ (i : Z) s, ∃ m, s = set_currentHandMemory m c ∧ length m = 52%nat)
    (λ i c, m ← store (currentHandMemory c) i None; Some (set_currentHandMemory m c))
    (Z.to_nat (currentHandMemoryLength c)) 0 c) as (s & Hs & m & -> & Hm).
  - intros i t Hi (m & -> & Hm). red_state.
    rewrite store_in_range by lia. red_state.
    eexists. split; [reflexivity|]. eexists. split; [reflexivity|].
    by rewrite length_insert.
  - exists (currentHandMemory c). split; [by destruct c|done].
  - eauto.
Qed.

(** The two loops that deal four cards each. *)
Lemma deal_player_loop c :
  length (deck c) = 52%nat → Forall notNil (deck c) → length (playerCards c) = 4%nat →
  0 <= currentCard c <= 48 →
  ∃ h, for_range (Z.to_nat HandSize) 0 (λ i c,
         card ← index (deck c) (currentCard c);
         h ← store (playerCards c) i card;
         Some (set_currentCard (wrap (currentCard c + 1)) (set_playerCards h c))) c
       = Some (set_currentCard (currentCard c + 4) (set_playerCards h c))
       ∧ length h = 4%nat ∧ Forall notNil h.
Proof.
  intros Hl Hf Hp Hc.
  destruct (for_range_inv
    (λ (i : Z) s, ∃ h, s = set_currentCard (currentCard c + i) (set_playerCards h c) ∧
                       length h = 4%nat ∧ Forall notNil (take (Z.to_nat i) h))
    (λ i c,
       card ← index (deck c) (currentCard c);
       h ← store (playerCards c) i card;
       Some (set_currentCard (wrap (currentCard c + 1)) (set_playerCards h c)))
    (Z.to_nat HandSize) 0 c) as (s & Hs & h & -> & Hh & Hhf).
  - intros i t Hi (h & -> & Hh & Hhf). change (Z.of_nat (Z.to_nat HandSize)) with 4 in Hi.
    red_state.
    destruct (deck_card c (currentCard c + i) Hl Hf) as [k ->]; [lia|]. red_state.
    rewrite store_in_range by lia. red_state.
    rewrite wrap_small by lia.
    replace (currentCard c + i + 1) with (currentCard c + (i + 1)) by lia.
    eexists. split; [reflexivity|]. eexists. split; [reflexivity|].
    rewrite length_insert. split; [done|].
    replace (Z.to_nat (i + 1)) with (S (Z.to_nat i)) by lia.
    apply take_insert_held; [lia|done].
  - exists (playerCards c). split; [|split; [done|]].
    + replace (currentCard c + 0) with (currentCard c) by lia. by destruct c.
    + apply Forall_nil_2.
  - exists h. split; [exact Hs|]. split; [done|].
    by apply (notNil_filled h 4).
Qed.

Lemma deal_cpu_loop c :
  length (deck c) = 52%nat → Forall notNil (deck c) → length (cpuCards c) = 4%nat →
  0 <= currentCard c <= 48 →
  ∃ h, for_range (Z.to_nat HandSize) 0 (λ i c,
         card ← index (deck c) (currentCard c);
         h ← store (cpuCards c) i card;
         Some (set_currentCard (wrap (currentCard c + 1)) (set_cpuCards h c))) c
       = Some (set_currentCard (currentCard c + 4) (set_cpuCards h c))
       ∧ length h = 4%nat ∧ Forall notNil h.
Proof.
  intros Hl Hf Hp Hc.
  destruct (for_range_inv
    (λ (i : Z) s, ∃ h, s = set_currentCard (currentCard c + i) (set_cpuCards h c) ∧
                       length h = 4%nat ∧ Forall notNil (take (Z.to_nat i) h))
    (λ i c,
       card ← index (deck c) (currentCard c);
       h ← store (cpuCards c) i card;
       Some (set_currentCard (wrap (currentCard c + 1)) (set_cpuCards h c)))
    (Z.to_nat HandSize) 0 c) as (s & Hs & h & -> & Hh & Hhf).
  - intros i t Hi (h & -> & Hh & Hhf). change (Z.of_nat (Z.to_nat HandSize)) with 4 in Hi.
    red_state.
    destruct (deck_card c (currentCard c + i) Hl Hf) as [k ->]; [lia|]. red_state.
    rewrite store_in_range by lia. red_state.
    rewrite wrap_small by lia.
    replace (currentCard c + i + 1) with (currentCard c + (i + 1)) by lia.
    eexists. split; [reflexivity|]. eexists. split; [reflexivity|].
    rewrite length_insert. split; [done|].
    replace (Z.to_nat (i + 1)) with (S (Z.to_nat i)) by lia.
    apply take_insert_held; [lia|done].
  - exists (cpuCards c). split; [|split; [done|]].
    + replace (currentCard c + 0) with (currentCard c) by lia. by destruct c.
    + apply Forall_nil_2.
  - exists h. split; [exact Hs|]. split; [done|].
    by apply (notNil_filled h 4).
Qed.

Lemma deal_spec c :
  length (deck c) = 52%nat → Forall notNil (deck c) →
  length (playerCards c) = 4%nat → length (cpuCards c) = 4%nat →
  length (currentHandMemory c) = 52%nat → 0 <= currentHandMemoryLength c <= 52 →
  0 <= currentCard c <= 44 →
  ∃ hp hc m ml sd,
    deal c = Some (dealt hp hc m ml sd c) ∧
    length hp = 4%nat ∧ Forall notNil hp ∧ length hc = 4%nat ∧ Forall notNil hc ∧
    length m = 52%nat ∧ 0 <= ml <= 52.
Proof.
  intros Hl Hf Hp Hc Hm Hml Hcc. unfold deal.
  destruct (Z.leb_spec DeckSize (currentCard c)) as [Hge|_].
  { unfold DeckSize in Hge. lia. }
  assert (Hc1 : ∃ m ml sd,
    (if isInitialPile c then Some c else
       c0 ← for_range (Z.to_nat (currentHandMemoryLength c)) 0 (λ i c0,
               m ← store (currentHandMemory c0) i None;
               Some (set_currentHandMemory m c0))
             (set_safeDiscardCandidate None c);
       Some (set_currentHandMemoryLength 0 c0))
    = Some (set_currentHandMemoryLength ml (set_currentHandMemory m
              (set_safeDiscardCandidate sd c)))
    ∧ length m = 52%nat ∧ 0 <= ml <= 52).
  { destruct (isInitialPile c).
    - exists (currentHandMemory c), (currentHandMemoryLength c), (safeDiscardCandidate c).
      split; [by destruct c|done].
    - destruct (clear_memory_loop (set_safeDiscardCandidate None c)) as (m & Hloop & Hlm);
        [done|done|].
      red_state in Hloop. red_state. rewrite Hloop. red_state.
      exists m, 0, None. split; [reflexivity|]. split; [done|lia]. }
  destruct Hc1 as (m & ml & sd & -> & Hlm & Hml'). cbn [mbind option_bind].
  set (c1 := set_currentHandMemoryLength ml _).
  destruct (deal_player_loop c1) as (hp & -> & Hhp & Hfp); [done..|subst c1; red_state; lia|].
  cbn [mbind option_bind].
  set (c2 := set_currentCard _ _).
  destruct (deal_cpu_loop c2) as (hc & -> & Hhc & Hfc);
    [done|done|done|subst c2 c1; red_state; lia|].
  exists hp, hc, m, ml, sd. split; [|done].
  subst c2 c1. unfold dealt. red_state.
  replace (currentCard c + 4 + 4) with (currentCard c + 8) by lia. reflexivity.
Qed.

(** ** End of hand and end of game *)

Lemma handleEndOfGame_spec c :
  WF c →
  ∃ p q a b, handleEndOfGame c = Some (ended p q a b c) ∧
    ((cardsOnTable c = 0 ∧ a = cardsCollectedByPlayer c ∧ b = cardsCollectedByCPU c)
     ∨ (0 < cardsOnTable c ∧ lastScorer c = Player ∧
        a = wrap (cardsCollectedByPlayer c + cardsOnTable c) ∧ b = cardsCollectedByCPU c)
     ∨ (0 < cardsOnTable c ∧ lastScorer c ≠ Player ∧
        a = cardsCollectedByPlayer c ∧ b = wrap (cardsCollectedByCPU c + cardsOnTable c))).
Proof.
  intros H. pose proof (wf_count c H) as Hn. pose proof (WF_table_le c H) as Hle.
  destruct (pointCalculator_total c (wf_table c H) (conj Hn Hle) (wf_pile c H)) as [pts Hpts].
  unfold handleEndOfGame, awardFinalPile.
  destruct (Z.leb_spec (cardsOnTable c) 0) as [H0|H0].
  - assert (Hz : cardsOnTable c = 0) by lia.
    red_state.
    destruct (cardsCollectedByCPU c <? cardsCollectedByPlayer c);
      [|destruct (cardsCollectedByPlayer c <? cardsCollectedByCPU c)];
      (do 4 eexists; split; [unfold ended; red_state; rewrite Hz; reflexivity|]);
      left; done.
  - rewrite Hpts. red_state.
    destruct (bool_decide (lastScorer c = Player)) eqn:Hs.
    + apply bool_decide_eq_true in Hs. red_state.
      destruct (cardsCollectedByCPU c <? wrap (cardsCollectedByPlayer c + cardsOnTable c));
        [|destruct (wrap (cardsCollectedByPlayer c + cardsOnTable c) <? cardsCollectedByCPU c)];
        (do 4 eexists; split; [unfold ended; red_state; reflexivity|]);
        right; left; done.
    + apply bool_decide_eq_false in Hs. red_state.
      destruct (wrap (cardsCollectedByCPU c + cardsOnTable c) <? cardsCollectedByPlayer c);
        [|destruct (cardsCollectedByPlayer c <? wrap (cardsCollectedByCPU c + cardsOnTable c))];
        (do 4 eexists; split; [unfold ended; red_state; reflexivity|]);
        right; right; done.
Qed.

Lemma ended_wf p q a b c : WF c → WF (ended p q a b c).
Proof.
  intros H. pose proof (wf_bound c H). pose proof (wf_count c H).
  destruct H. constructor; unfold pile in *; red_state; try assumption; try lia.
  apply Forall_nil_2.
Qed.

Lemma dealt_wf hp hc m ml sd c :
  WF c → held (playerCards c) = 0 → currentCard c ≠ 52 →
  length hp = 4%nat → Forall notNil hp → length hc = 4%nat → Forall notNil hc →
  length m = 52%nat → 0 <= ml <= 52 →
  WF (dealt hp hc m ml sd c).
Proof.
  intros H Hf Hcc Hhp Hfp Hhc Hfc Hm Hml.
  pose proof (wf_bound c H) as Hb. pose proof (wf_cursor c H) as [Hc1 Hc2].
  pose proof (held_nonneg (cpuCards c)).
  pose proof (wf_snap c H) as Hsnap.
  apply (SnapOK_mono _ (currentCard c + 8)) in Hsnap; [|lia].
  assert (currentCard c <= 44).
  { destruct (decide (currentCard c <= 44)); [done|].
    assert (currentCard c - 12 = 8 * ((currentCard c - 12) / 8))
      by (apply Z.div_exact; lia). lia. }
  destruct H. constructor; unfold pile in *; red_state; try assumption; try lia.
  - split; [lia|].
    replace (currentCard c + 8 - 12) with (currentCard c - 12 + 1 * 8) by lia.
    by rewrite Z.mod_add by lia.
  - rewrite (held_all hp), (held_all hc), Hhp, Hhc by done. lia.
Qed.

Lemma isHandFinished_held c : isHandFinished c = true ↔ handFinished c.
Proof. apply held_zero_finished. Qed.

(** The three ways in which [checkEndOfHand] returns. *)
Lemma checkEndOfHand_cases c :
  WF c →
  (checkEndOfHand c = Some c ∧ (gameState c = StateGameOver ∨ ¬ handFinished c))
  ∨ (gameState c ≠ StateGameOver ∧ handFinished c ∧ currentCard c = 52 ∧
     checkEndOfHand c = handleEndOfGame c)
  ∨ (gameState c ≠ StateGameOver ∧ handFinished c ∧ currentCard c ≠ 52 ∧
     ∃ hp hc m ml sd,
       checkEndOfHand c = Some (set_gameState StatePlayerTurn (dealt hp hc m ml sd c)) ∧
       length hp = 4%nat ∧ Forall notNil hp ∧ length hc = 4%nat ∧ Forall notNil hc ∧
       length m = 52%nat ∧ 0 <= ml <= 52).
Proof.
  intros H. unfold checkEndOfHand.
  destruct (bool_decide (gameState c = StateGameOver)) eqn:Hg.
  { apply bool_decide_eq_true in Hg. left. auto. }
  apply bool_decide_eq_false in Hg.
  destruct (isHandFinished c) eqn:Hf.
  2: { left. split; [done|]. right. intros Hh%isHandFinished_held. congruence. }
  apply isHandFinished_held in Hf. right.
  destruct (Z.eqb_spec (currentCard c) DeckSize) as [Hcc|Hcc]; [left; done|right].
  do 3 (split; [done|]).
  pose proof (wf_cursor c H) as [Hc1 Hc2].
  assert (currentCard c <= 44).
  { unfold DeckSize in Hcc. destruct (decide (currentCard c <= 44)); [done|].
    assert (currentCard c - 12 = 8 * ((currentCard c - 12) / 8))
      by (apply Z.div_exact; lia). lia. }
  destruct (deal_spec c) as (hp & hc & m & ml & sd & Hd & Hrest);
    [apply H..|lia|].
  exists hp, hc, m, ml, sd. split; [|done].
  unfold handleEndOfHand. by rewrite Hd.
Qed.

Lemma checkEndOfHand_wf c c' : WF c → checkEndOfHand c = Some c' → WF c'.
Proof.
  intros H Hc.
  destruct (checkEndOfHand_cases c H)
    as [[Hs _]|[(_ & _ & _ & Hs)|(_ & Hf & Hcc & hp & hc & m & ml & sd & Hs & Hrest)]].
  - congruence.
  - destruct (handleEndOfGame_spec c H) as (p & q & a & b & He & _).
    assert (c' = ended p q a b c) as -> by congruence. by apply ended_wf.
  - assert (c' = set_gameState StatePlayerTurn (dealt hp hc m ml sd c)) as -> by congruence.
    destruct Hrest as (? & ? & ? & ? & ? & ?).
    apply (WF_ext (dealt hp hc m ml sd c)); [reflexivity..|]. by apply dealt_wf.
Qed.

(** ** Undo on a well-formed state *)

Lemma clearRun_length xs : length (clearRun xs) = length xs.
Proof. induction xs as [|[?|] xs IH]; cbn [clearRun length]; congruence. Qed.

Lemma copyAndClear_length dst src n : length (copyAndClear dst src n) = length dst.
Proof.
  unfold copyAndClear.
  rewrite length_app, clearRun_length, <- length_app, take_drop. apply copy_length.
Qed.

Lemma copyAndClear_prefix dst src n :
  Z.of_nat (length src) = n → (length src <= length dst)%nat →
  take (Z.to_nat n) (copyAndClear dst src n) = src.
Proof.
  intros Hn Hle. unfold copyAndClear.
  replace (Z.to_nat n) with (length src) by lia.
  rewrite copy_prefix by done.
  by rewrite take_app_length.
Qed.

Lemma undo_refused c : canUndo c = false → undoImplementation c = Some (false, c).
Proof. intros H. unfold undoImplementation. by rewrite H. Qed.

Lemma undo_restores c :
  canUndo c = true →
  0 <= UndoState.cardsOnTable (undoState c) →
  0 <= UndoState.currentHandMemoryLength (undoState c) →
  undoImplementation c = Some (true, restored c).
Proof.
  intros Hu Hn Hm. unfold undoImplementation, clearFrom. rewrite Hu. red_state.
  destruct (Z.ltb_spec (UndoState.cardsOnTable (undoState c)) 0); [lia|].
  red_state.
  destruct (Z.ltb_spec (UndoState.currentHandMemoryLength (undoState c)) 0); [lia|].
  reflexivity.
Qed.

Lemma SnapOK_nonneg cc u :
  SnapOK cc u → 0 <= UndoState.cardsOnTable u ∧ 0 <= UndoState.currentHandMemoryLength u.
Proof. intros [H1 _ H3 _ _ _]. lia. Qed.

Lemma SnapOK_table_le cc u : SnapOK cc u → 0 <= cc <= 52 → UndoState.cardsOnTable u <= 52.
Proof.
  intros [_ _ _ _ H5 _] Hcc. destruct H5 as [(_ & _ & ->)|(_ & _ & Hb)]; [lia|].
  pose proof (held_nonneg (UndoState.playerCards u)).
  pose proof (held_nonneg (UndoState.cpuCards u)). lia.
Qed.

Lemma restored_wf c : WF c → WF (restored c).
Proof.
  intros H. pose proof (wf_snap c H) as Hs.
  pose proof (wf_cursor c H) as [Hcc _].
  pose proof (SnapOK_nonneg _ _ Hs) as [Hn Hm].
  pose proof (SnapOK_table_le _ _ Hs ltac:(lia)) as Hle.
  pose proof (wf_bound c H) as Hb. pose proof (wf_count c H) as Hc.
  destruct Hs as [S1 S2 S3 S4 S5 S6].
  assert (Hhands :
    length (copy (playerCards c) (UndoState.playerCards (undoState c))) = 4%nat ∧
    length (copy (cpuCards c) (UndoState.cpuCards (undoState c))) = 4%nat ∧
    UndoState.cardsOnTable (undoState c)
      + held (copy (playerCards c) (UndoState.playerCards (undoState c)))
      + held (copy (cpuCards c) (UndoState.cpuCards (undoState c))) <= currentCard c).
  { rewrite !copy_length, (wf_player c H), (wf_cpu c H). do 2 (split; [done|]).
    destruct S5 as [(-> & -> & ->)|(Hp & Hq & Hbb)].
    - rewrite !copy_nil. lia.
    - rewrite !copy_same_length by (by rewrite ?(wf_player c H), ?(wf_cpu c H)). done. }
  destruct Hhands as (Hp & Hq & Hbb).
  destruct H. constructor; unfold pile in *; unfold restored; red_state; try assumption.
  - by rewrite copyAndClear_length.
  - by rewrite copyAndClear_length.
  - rewrite copyAndClear_prefix; [done|done|]. lia.
  - lia.
Qed.

Lemma undoImplementation_wf c b c' : WF c → undoImplementation c = Some (b, c') → WF c'.
Proof.
  intros H Hu. destruct (canUndo c) eqn:Hc.
  - pose proof (SnapOK_nonneg _ _ (wf_snap c H)) as [Hn Hm].
    rewrite undo_restores in Hu by done.
    assert (c' = restored c) as -> by congruence. by apply restored_wf.
  - rewrite undo_refused in Hu by done. congruence.
Qed.

(** ** Starting a game *)

Lemma Intn_range n r : 0 < n →
  ∃ k r', Intn n r = Some (k, r') ∧ 0 <= k < n.
Proof.
  intros Hn. unfold Intn. destruct (Z.leb_spec n 0); [lia|].
  eexists _, _. split; [reflexivity|]. by apply Z.mod_pos_bound.
Qed.

Lemma notNil_insert (xs : list Slot) i k :
  Forall notNil xs → Forall notNil (<[i := Some k]> xs).
Proof. intros H. by apply Forall_insert. Qed.

Lemma shuffle_spec c :
  length (deck c) = 52%nat → Forall notNil (deck c) →
  ∃ d r, shuffle c = Some (set_deck d (set_rng r c)) ∧
         length d = 52%nat ∧ Forall notNil d.
Proof.
  intros Hl Hf. unfold shuffle.
  destruct (for_range_inv
    (λ (i : Z) s, ∃ d r, s = set_deck d (set_rng r c) ∧ length d = 52%nat ∧ Forall notNil d)
    (λ i c,
      '(swapped, r) ← Intn DeckSize (rng c);
      a ← index (deck c) i;
      b ← index (deck c) swapped;
      d ← store (deck c) i b;
      d ← store d swapped a;
      Some (set_deck d (set_rng r c)))
    (Z.to_nat DeckSize) 0 c) as (s & Hs & d & r & -> & Hd & Hfd).
  - intros i t Hi (d & r & -> & Hd & Hfd). change (Z.of_nat (Z.to_nat DeckSize)) with 52 in Hi.
    cbn [rng set_deck set_rng].
    destruct (Intn_range DeckSize r) as (k & r' & -> & Hk); [done|].
    unfold DeckSize in Hk. red_state.
    destruct (index_in_range d i) as (a & -> & Ha); [lia|].
    destruct (index_in_range d k) as (b & -> & Hb); [lia|].
    destruct (Forall_notNil_lookup _ _ _ Hfd Ha) as [ka ->].
    destruct (Forall_notNil_lookup _ _ _ Hfd Hb) as [kb ->].
    red_state. rewrite store_in_range by lia. red_state.
    rewrite store_in_range by (rewrite length_insert; lia). red_state.
    eexists. split; [reflexivity|]. eexists _, _. split; [reflexivity|].
    rewrite !length_insert. split; [done|].
    by do 2 apply notNil_insert.
  - exists (deck c), (rng c). split; [by destruct c|done].
  - eauto.
Qed.

(** The loop that lays the first four cards of the deck on the table. *)
Lemma table_loop c :
  length (deck c) = 52%nat → Forall notNil (deck c) → length (tableCards c) = 52%nat →
  ∃ t, layTable c = Some (set_tableCards t c)
       ∧ length t = 52%nat ∧ Forall notNil (take 4 t).
Proof.
  intros Hl Hf Ht. unfold layTable.
  destruct (for_range_inv
    (λ (i : Z) s, ∃ t, s = set_tableCards t c ∧ length t = 52%nat ∧
                       Forall notNil (take (Z.to_nat i) t))
    (λ i c,
       card ← index (deck c) i;
       t ← store (tableCards c) i card;
       Some (set_tableCards t c))
    (Z.to_nat HandSize) 0 c) as (s & Hs & t & -> & Hlt & Hft).
  - intros i s Hi (t & -> & Hlt & Hft). change (Z.of_nat (Z.to_nat HandSize)) with 4 in Hi.
    red_state.
    destruct (deck_card c i Hl Hf) as [k ->]; [lia|]. red_state.
    rewrite store_in_range by lia. red_state.
    eexists. split; [reflexivity|]. eexists. split; [reflexivity|].
    rewrite length_insert. split; [done|].
    replace (Z.to_nat (i + 1)) with (S (Z.to_nat i)) by lia.
    apply take_insert_held; [lia|done].
  - exists (tableCards c). split; [by destruct c|]. split; [done|apply Forall_nil_2].
  - exists t. split; [exact Hs|]. split; [done|exact Hft].
Qed.

Lemma index_held_prefix (t : list Slot) n i :
  (n <= length t)%nat → Forall notNil (take n t) → 0 <= i < Z.of_nat n →
  ∃ k, index t i = Some (Some k).
Proof.
  intros Hn Hf Hi.
  destruct (lookup_lt_is_Some_2 (take n t) (Z.to_nat i)) as [x Hx].
  { rewrite length_take. lia. }
  destruct (Forall_notNil_lookup _ _ _ Hf Hx) as [k ->].
  exists k. apply index_Some. split; [lia|].
  apply lookup_take_Some in Hx. tauto.
Qed.

Lemma bind_Some {A B} (x : A) (f : A → option B) : (Some x ≫= f) = f x.
Proof. reflexivity. Qed.

Lemma StartGame_spec c :
  gameState c = StateNotStarted → level c ≠ LevelNotSelected →
  length (deck c) = 52%nat → Forall notNil (deck c) →
  length (playerCards c) = 4%nat → length (cpuCards c) = 4%nat →
  length (tableCards c) = 52%nat → length (currentHandMemory c) = 52%nat →
  length (allPlayedCardsMemory c) = 52%nat → SnapOK 12 (undoState c) →
  ∃ c', StartGame c = Some (true, c') ∧ Started c c'.
Proof.
  intros Hg Hlv Hd Hfd Hp Hq Ht Hm Ha Hs. unfold StartGame.
  destruct (decide (gameState c ≠ StateNotStarted)) as [Hn|_]; [done|].
  repeat (rewrite bind_Some; cbv beta).
  destruct (decide (level c = LevelNotSelected)) as [Hn|_]; [done|].
  destruct (shuffle_spec (set_currentCard 0 c)) as (d & r & -> & Hld & Hfd'); [done..|].
  repeat (rewrite bind_Some; cbv beta).
  set (cS := resetCounters _).
  destruct (table_loop cS) as (t & -> & Hlt & Hft); [done..|].
  repeat (rewrite bind_Some; cbv beta). unfold recordHidden. cbn [tableCards set_tableCards].
  rewrite Hlt. change (3 <=? Z.of_nat 52) with true. cbv iota.
  destruct (index_held_prefix t 4 0) as [k0 ->]; [lia|done|lia|].
  destruct (index_held_prefix t 4 1) as [k1 ->]; [lia|done|lia|].
  destruct (index_held_prefix t 4 2) as [k2 ->]; [lia|done|lia|].
  repeat (rewrite bind_Some; cbv beta).
  set (cD := set_currentCard HandSize _).
  destruct (deal_spec cD) as (hp & hc & m & ml & sd & -> & Hhp & Hfp & Hhc & Hfc & Hlm & Hml);
    [done..|subst cD cS; red_state; lia|subst cD cS; red_state; unfold HandSize; lia|].
  repeat (rewrite bind_Some; cbv beta).
  eexists. split; [reflexivity|].
  assert (Hheld : held hp = 4 ∧ held hc = 4).
  { rewrite (held_all hp), (held_all hc), Hhp, Hhc by done. done. }
  destruct Hheld as [Hh1 Hh2].
  subst cD cS. unfold dealt, HandSize.
  constructor; [|red_state; (done || lia)..].
  constructor; unfold pile; red_state; unfold HandSize; try (done || lia).
  split; [done|].
  do 3 (apply Forall_cons_2; [done|]). apply Forall_nil_2.
Qed.

Lemma newDeck_length : length newDeck = 52%nat.
Proof. reflexivity. Qed.

Lemma newDeck_held : Forall notNil newDeck.
Proof. apply Forall_fmap, Forall_forall. intros i _. done. Qed.

Lemma SnapOK_zero cc : SnapOK cc UndoState.zero.
Proof. constructor; cbn; first [done | lia | apply Forall_nil_2 | by left]. Qed.

(** A fresh engine started at a selected level. *)
Lemma StartGame_fresh r l :
  1 <= l <= 3 →
  ∃ lv c, GameLevel_of_Z l = Some lv ∧ lv ≠ LevelNotSelected ∧
          StartGame (SetLevel l (NewCasino r)) = Some (true, c) ∧
          Started (set_level lv (NewCasino r)) c.
Proof.
  intros Hl.
  assert (Hlv : ∃ lv, GameLevel_of_Z l = Some lv ∧ lv ≠ LevelNotSelected ∧
                      SetLevel l (NewCasino r) = set_level lv (NewCasino r)).
  { assert (Hc : l = 1 ∨ l = 2 ∨ l = 3) by lia.
    destruct Hc as [-> | [-> | ->]]; eexists; (split; [reflexivity|]); split; done. }
  destruct Hlv as (lv & Hlv & Hne & ->).
  destruct (StartGame_spec (set_level lv (NewCasino r))) as (c & Hc & Hst);
    try done; try apply newDeck_held; try apply SnapOK_zero.
  exists lv, c. done.
Qed.

(** ** Reachable states *)

Lemma reachable_runAll os c c' : reachable c → runAll os c = Some c' → reachable c'.
Proof.
  revert c. induction os as [|o os IH]; intros c Hc Hr; cbn [runAll] in Hr.
  - by inversion Hr; subst.
  - destruct (run o c) as [c1|] eqn:Ho; [|done].
    apply (IH c1); [|done]. by apply (reach_step o c).
Qed.

Lemma startAt_started r l c :
  1 <= l <= 3 → startAt r l = Some c →
  ∃ lv, GameLevel_of_Z l = Some lv ∧ lv ≠ LevelNotSelected ∧
        Started (set_level lv (NewCasino r)) c.
Proof.
  intros Hl Hs. destruct (StartGame_fresh r l Hl) as (lv & c0 & Hlv & Hne & Hst & HS).
  unfold startAt in Hs. rewrite Hst in Hs.
  assert (c = c0) as -> by congruence. eauto.
Qed.

Lemma run_wf o c c' : WF c → run o c = Some c' → WF c'.
Proof.
  intros H. destruct o; cbn [run].
  - by apply playerPlays_wf.
  - by apply cpuPlays_wf.
  - intros [= <-]. by apply finalizeCapture_wf.
  - by apply checkEndOfHand_wf.
  - destruct (undoImplementation c) as [[b c1]|] eqn:Hu; cbn [mbind option_bind snd]; [|done].
    intros [= <-]. by eapply undoImplementation_wf.
Qed.

Theorem reachable_wf c : reachable c → WF c.
Proof.
  induction 1 as [r l c Hl Hs|o c c' _ IH Hr].
  - destruct (startAt_started r l c Hl Hs) as (lv & _ & _ & HS). apply HS.
  - by eapply run_wf.
Qed.

(** The level never changes during a game. *)
Lemma deal_level c c' : deal c = Some c' → WF c → level c' = level c.
Proof.
  intros Hd H. unfold deal in Hd.
  destruct (Z.leb_spec DeckSize (currentCard c)); [congruence|].
  pose proof (wf_cursor c H) as [Hc1 Hc2].
  assert (currentCard c <= 44).
  { unfold DeckSize in *. destruct (decide (currentCard c <= 44)); [done|].
    assert (currentCard c - 12 = 8 * ((currentCard c - 12) / 8))
      by (apply Z.div_exact; lia). lia. }
  destruct (deal_spec c) as (hp & hc & m & ml & sd & Hd' & _); [apply H..|lia|].
  unfold deal in Hd'. destruct (Z.leb_spec DeckSize (currentCard c)); [unfold DeckSize in *; lia|].
  rewrite Hd' in Hd. by inversion Hd.
Qed.

(** * The claims *)

(** ** C8: the scoring table *)

(** C8. For every pile of cards on the table, [pointCalculator] returns the
    sum over the pile of 1 per Jack, 1 per Ace, 2 for the Two of Clubs, 3
    for the Ten of Diamonds and 0 for every other card ([pileScore]); in
    particular a pile made of exactly one Ace, one Jack, the Two of Clubs
    and the Ten of Diamonds, in any order, scores 7. *)
Theorem scoring_table (c : Casino) (cards : list Card) :
  length (tableCards c) = 52%nat →
  0 <= cardsOnTable c <= 52 →
  pile c = Some <$> cards →
  pointCalculator c = Some (pileScore cards) ∧
  (∀ a j d t : Card,
     face a = "Ace" → face j = "Jack" →
     face d = "Deuce" → suit d = "Clubs" →
     face t = "Ten" → suit t = "Diamonds" →
     cards ≡ₚ [a; j; d; t] → pointCalculator c = Some 7).
Proof.
  intros Ht Hn Hp.
  pose proof (pointCalculator_pile c cards Ht Hn Hp) as Hs.
  split; [done|].
  intros a j d t Ha Hj Hd Hdc Htf Hts Hperm.
  rewrite Hs. f_equal. rewrite (pileScore_perm _ _ Hperm).
  cbn [pileScore foldr]. unfold cardPoints.
  rewrite Ha, Hj, Hd, Hdc, Htf, Hts. reflexivity.
Qed.

Lemma scoring_table_witness :
  let cards := [aceOfHearts; jackOfSpades; twoOfClubs; tenOfDiamonds] in
  (length (tableCards (withPile cards)) = 52%nat ∧
   0 <= cardsOnTable (withPile cards) <= 52 ∧
   pile (withPile cards) = Some <$> cards) ∧
  pointCalculator (withPile cards) = Some (pileScore cards) ∧
  pointCalculator (withPile cards) = Some 7.
Proof.
  intros cards.
  assert (H1 : length (tableCards (withPile cards)) = 52%nat) by reflexivity.
  assert (H2 : 0 <= cardsOnTable (withPile cards) <= 52) by (vm_compute; split; discriminate).
  assert (H3 : pile (withPile cards) = Some <$> cards) by reflexivity.
  split; [done|].
  destruct (scoring_table (withPile cards) cards H1 H2 H3) as [Hsum Hseven].
  split; [exact Hsum|].
  apply (Hseven aceOfHearts jackOfSpades twoOfClubs tenOfDiamonds); reflexivity.
Defined.

(** ** C7: bonus captures and normal captures *)

Lemma capture_awards tf sf second pid c pts :
  HiddenOK (initialHiddenCards c) → pointCalculator c = Some pts →
  ∃ c', capture tf sf second pid c = Some c' ∧
    gameState c' = StatePileCaptured ∧
    tableCards c' = tableCards c ∧ cardsOnTable c' = cardsOnTable c ∧
    scoreOf pid c' =
      wrap (scoreOf pid c +
            (if (cardsOnTable c =? 2) && String.eqb tf sf
             then (if String.eqb tf "Jack" then 20 else 10) else pts)) ∧
    collectedOf pid c' =
      wrap (collectedOf pid c +
            (if (cardsOnTable c =? 2) && String.eqb tf sf then 2 else cardsOnTable c)).
Proof.
  intros Hh Hpts. unfold capture, scoreOf, collectedOf.
  destruct (bool_decide (pid = Player)) eqn:Hpid;
    destruct (String.eqb tf "Jack") eqn:Hj; red_state;
    (destruct (initialHiddenCards c) as [hidden|] eqn:Hhid;
     [destruct (HiddenOK_cards _ Hh) as (a & b & d & ->)|]);
    rewrite ?announceHidden_cards; red_state;
    (destruct ((cardsOnTable c =? 2) && String.eqb tf sf) eqn:Hb; red_state;
     [|score_with c Hpts; red_state]);
    rewrite ?Hpid; (eexists; split; [reflexivity|]); red_state;
    repeat split; reflexivity.
Qed.

(** C7. When the played card captures the pile ([captures]): if the play
    leaves exactly 2 cards on the pile and their faces match, the side that
    played is awarded exactly 20 points when the face is Jack and exactly
    10 points otherwise, and 2 collected cards; in every other capture (a
    larger pile, or a Jack on a card of another face) it is awarded the
    scoring table's sum over the entire pile, and every card of the pile as
    collected. *)
Theorem capture_classification (k k2 : Card) (pid : PlayerID) (c : Casino) :
  TurnPre c →
  index (tableCards c) (cardsOnTable c - 1) = Some (Some k2) →
  captures k k2 = true →
  ∃ c' cards,
    processTurn (Some k) pid c = Some c' ∧
    gameState c' = StatePileCaptured ∧
    pile c' = pile c ++ [Some k] ∧ pile c' = Some <$> cards ∧
    if (cardsOnTable c =? 1) && String.eqb (face k) (face k2)
    then scoreOf pid c' =
           wrap (scoreOf pid c + (if String.eqb (face k) "Jack" then 20 else 10)) ∧
         collectedOf pid c' = wrap (collectedOf pid c + 2)
    else scoreOf pid c' = wrap (scoreOf pid c + pileScore cards) ∧
         collectedOf pid c' = wrap (collectedOf pid c + Z.of_nat (length cards)).
Proof.
  intros Hpre Htop Hcap.
  pose proof Hpre as [Ht Hm Ha Hn Hp Hml Hal Hh].
  assert (H1 : 1 <= cardsOnTable c).
  { apply index_Some in Htop as [? _]. lia. }
  unfold processTurn. cbn [isNil].
  destruct (remember_spec (Some k) c Hm Ha Hml Hal)
    as (m & a & ml & al & -> & Hlm & Hla & Hml' & Hal' & _).
  red_state. rewrite store_in_range by lia. red_state.
  rewrite (wrap_small (cardsOnTable c + 1)) by lia.
  destruct (Z.ltb_spec 1 (cardsOnTable c + 1)) as [_|?]; [|lia].
  rewrite index_insert_top by lia.
  assert (Hsecond : index (<[Z.to_nat (cardsOnTable c) := Some k]> (tableCards c))
                          (cardsOnTable c + 1 - 2) = Some (Some k2)).
  { apply index_Some in Htop as [? Htop]. apply index_Some. split; [lia|].
    replace (cardsOnTable c + 1 - 2) with (cardsOnTable c - 1) by lia.
    rewrite list_lookup_insert_ne by lia. done. }
  rewrite Hsecond. red_state.
  unfold captures in Hcap. rewrite Hcap.
  set (c1 := mkCasino _ _ _ _ _ _ _ _ _ _ _ _ _ _ _ _ _ _ _ _ _ _ _ _ _ _).
  assert (Hpile1 : pile c1 = pile c ++ [Some k]).
  { unfold pile. subst c1. red_state.
    replace (Z.to_nat (cardsOnTable c + 1)) with (S (Z.to_nat (cardsOnTable c))) by lia.
    assert (Hl : <[Z.to_nat (cardsOnTable c) := Some k]> (tableCards c)
                   !! Z.to_nat (cardsOnTable c) = Some (Some k))
      by (apply list_lookup_insert_eq; lia).
    rewrite (take_S_r _ _ _ Hl), take_insert_ge by lia. done. }
  assert (Hheld1 : Forall notNil (pile c1)).
  { rewrite Hpile1. apply Forall_app. split; [done|]. by apply Forall_cons_2. }
  destruct (notNil_cards _ Hheld1) as [cards Hcards].
  assert (Hlen : Z.of_nat (length cards) = cardsOnTable c + 1).
  { apply (f_equal length) in Hcards. rewrite length_fmap, Hpile1, length_app in Hcards.
    unfold pile in Hcards. rewrite length_take in Hcards. cbn [length] in Hcards. lia. }
  assert (Hpts : pointCalculator c1 = Some (pileScore cards)).
  { apply pointCalculator_pile; [|subst c1; red_state; lia|done].
    subst c1. red_state. by rewrite length_insert. }
  destruct (capture_awards (face k) (face k2) (Some k2) pid c1 (pileScore cards))
    as (c' & Hc' & Hg & Htab & Hcnt & Hscore & Hcoll); [done|done|].
  exists c', cards. split; [exact Hc'|]. split; [exact Hg|].
  assert (Hpile' : pile c' = pile c1) by (unfold pile; by rewrite Htab, Hcnt).
  split; [by rewrite Hpile'|]. split; [by rewrite Hpile'|].
  assert (Hs1 : scoreOf pid c1 = scoreOf pid c) by (unfold scoreOf; by destruct (bool_decide _)).
  assert (Hk1 : collectedOf pid c1 = collectedOf pid c)
    by (unfold collectedOf; by destruct (bool_decide _)).
  assert (Hn1 : cardsOnTable c1 = cardsOnTable c + 1) by reflexivity.
  rewrite Hs1, Hn1 in Hscore. rewrite Hk1, Hn1 in Hcoll.
  replace (cardsOnTable c + 1 =? 2) with (cardsOnTable c =? 1) in Hscore, Hcoll
    by (destruct (Z.eqb_spec (cardsOnTable c) 1), (Z.eqb_spec (cardsOnTable c + 1) 2); lia).
  destruct ((cardsOnTable c =? 1) && String.eqb (face k) (face k2)).
  - done.
  - rewrite Hlen. done.
Qed.

Lemma capture_classification_witness :
  (TurnPre (withPile [sevenOfHearts]) ∧
   index (tableCards (withPile [sevenOfHearts])) (cardsOnTable (withPile [sevenOfHearts]) - 1)
     = Some (Some sevenOfHearts) ∧
   captures sevenOfSpades sevenOfHearts = true) ∧
  ∃ c' cards,
    processTurn (Some sevenOfSpades) Player (withPile [sevenOfHearts]) = Some c' ∧
    gameState c' = StatePileCaptured ∧
    pile c' = pile (withPile [sevenOfHearts]) ++ [Some sevenOfSpades] ∧
    pile c' = Some <$> cards ∧
    scoreOf Player c' = wrap (scoreOf Player (withPile [sevenOfHearts]) + 10) ∧
    collectedOf Player c' = wrap (collectedOf Player (withPile [sevenOfHearts]) + 2).
Proof.
  assert (H1 : TurnPre (withPile [sevenOfHearts])).
  { constructor;
      first [ reflexivity | exact I
            | vm_compute; split; first [discriminate | reflexivity]
            | apply Forall_cons_2; [discriminate | apply Forall_nil_2] ]. }
  assert (H2 : index (tableCards (withPile [sevenOfHearts]))
                 (cardsOnTable (withPile [sevenOfHearts]) - 1) = Some (Some sevenOfHearts))
    by reflexivity.
  assert (H3 : captures sevenOfSpades sevenOfHearts = true) by reflexivity.
  split; [done|].
  exact (capture_classification sevenOfSpades sevenOfHearts Player
           (withPile [sevenOfHearts]) H1 H2 H3).
Defined.

Lemma play_reachable r l os c : 1 <= l <= 3 → play r l os = Some c → reachable c.
Proof.
  intros Hl Hp. unfold play in Hp.
  destruct (startAt r l) as [c0|] eqn:Hs; [|done].
  apply (reachable_runAll os c0); [|done]. by apply (reach_start r l).
Qed.

(** ** C10: plays outside the hand *)

(** C10, as the code has it. In every state of a game, [playerPlays] with a
    slot index from 0 to 3 returns normally, and on an empty slot it returns
    at the nil check; with any other index it panics on the slice access
    [c.playerCards[playedCardIdx]]: the index is not checked. *)
Theorem playerPlays_panics_outside_hand (c : Casino) (i : Z) :
  reachable c →
  (0 <= i < 4 → ∃ c', playerPlays i c = Some c') ∧
  (index (playerCards c) i = Some None → playerPlays i c = Some (snapshotTaken c)) ∧
  (¬ (0 <= i < 4) → playerPlays i c = None).
Proof.
  intros H%reachable_wf. split; [|split].
  - by apply playerPlays_total.
  - by apply playerPlays_empty.
  - by apply playerPlays_out_of_range.
Qed.

Lemma playerPlays_panics_outside_hand_witness :
  ∃ c, play zeros 1 [] = Some c ∧ reachable c ∧
       (∃ c', playerPlays 2 c = Some c') ∧ playerPlays 7 c = None.
Proof.
  eexists. split; [vm_compute; reflexivity|].
  match goal with |- reachable ?c ∧ _ =>
    assert (H : reachable c) by (apply (play_reachable zeros 1 []); [lia|vm_compute; reflexivity])
  end.
  split; [exact H|].
  split.
  - apply (playerPlays_panics_outside_hand _ 2 H). lia.
  - apply (playerPlays_panics_outside_hand _ 7 H). lia.
Defined.

(** C10 fails as stated: in a freshly started game, playing slot index 4
    (or -1) panics with an index out of range. *)
Lemma play_out_of_range_panics :
  ∃ c, play zeros 1 [] = Some c ∧ reachable c ∧
       playerPlays 4 c = None ∧ playerPlays (-1) c = None.
Proof.
  eexists. split; [vm_compute; reflexivity|].
  split; [apply (play_reachable zeros 1 []); [lia|vm_compute; reflexivity]|].
  split; vm_compute; reflexivity.
Qed.

(** ** C4: plays out of turn *)

Lemma set_gameState_wf g c : WF c → WF (set_gameState g c).
Proof. apply WF_ext; reflexivity. Qed.

(** C4, as the code has it. [playerPlays] and [cpuPlays] never look at the
    game state: whatever game state [g] a state of a game is given,
    [playerPlays] on a held slot plays the card (the slot is empty and the
    pile one card higher afterwards); what makes a play a no-op is the want
    of a card: [playerPlays] on an empty slot changes nothing but the undo
    snapshot ([snapshotTaken]), and [cpuPlays] with an empty computer hand
    changes nothing at all. *)
Theorem plays_ignore_the_turn (c : Casino) (g : GameState) (i : Z) :
  reachable c →
  (∀ k, index (playerCards c) i = Some (Some k) →
     ∃ c', playerPlays i (set_gameState g c) = Some c' ∧
           index (playerCards c') i = Some None ∧
           cardsOnTable c' = cardsOnTable c + 1) ∧
  (index (playerCards c) i = Some None →
     playerPlays i (set_gameState g c) = Some (snapshotTaken (set_gameState g c))) ∧
  (held (cpuCards c) = 0 → cpuPlays (set_gameState g c) = Some (set_gameState g c)).
Proof.
  intros H%reachable_wf. pose proof (set_gameState_wf g c H) as Hg.
  split; [|split].
  - intros k Hk.
    destruct (playerPlays_held i k (set_gameState g c) Hg Hk) as (c' & _ & Hpost & ->).
    exists (endInitialPile c'). split; [done|].
    assert (Hp : playerCards (endInitialPile c') = <[Z.to_nat i := None]> (playerCards c)).
    { unfold endInitialPile. destruct (isInitialPile c'); red_state;
        rewrite (pt_player _ _ _ _ Hpost); unfold playerHandsOver; red_state;
        by rewrite snapshotTaken_player. }
    assert (Hn : cardsOnTable (endInitialPile c') = cardsOnTable c + 1).
    { unfold endInitialPile. destruct (isInitialPile c'); red_state;
        rewrite (pt_count _ _ _ _ Hpost); unfold playerHandsOver, snapshotTaken;
        by destruct (bool_decide _). }
    split; [|done]. rewrite Hp.
    apply index_Some in Hk as [Hi Hk]. apply index_Some. split; [done|].
    apply list_lookup_insert_eq. by eapply lookup_lt_Some.
  - intros He. by apply playerPlays_empty.
  - intros Hh. by apply cpuPlays_no_cards.
Qed.

Lemma plays_ignore_the_turn_witness :
  ∃ c, play zeros 1 [OpPlayerPlays 0] = Some c ∧ reachable c ∧
       gameState c = StateCPUTurn ∧
       (∃ c', playerPlays 1 (set_gameState StateCPUTurn c) = Some c' ∧
              index (playerCards c') 1 = Some None ∧
              cardsOnTable c' = cardsOnTable c + 1) ∧
       playerPlays 0 (set_gameState StateCPUTurn c)
         = Some (snapshotTaken (set_gameState StateCPUTurn c)).
Proof.
  eexists. split; [vm_compute; reflexivity|].
  match goal with |- reachable ?c ∧ _ =>
    assert (H : reachable c)
      by (apply (play_reachable zeros 1 [OpPlayerPlays 0]); [lia|vm_compute; reflexivity])
  end.
  split; [exact H|]. split; [reflexivity|]. split.
  - apply (proj1 (plays_ignore_the_turn _ StateCPUTurn 1 H)
             (NewCard "Five" "Hearts" "5")). reflexivity.
  - apply (proj1 (proj2 (plays_ignore_the_turn _ StateCPUTurn 0 H))). reflexivity.
Defined.

(** C4 fails as stated: after the player's first move the game state is
    [StateCPUTurn], and a second [playerPlays] is carried out all the same;
    in the freshly started game the state is [StatePlayerTurn], and
    [cpuPlays] is carried out all the same. *)
Lemma out_of_turn_plays_are_carried_out :
  (∃ c c', play zeros 1 [OpPlayerPlays 0] = Some c ∧ reachable c ∧
           gameState c = StateCPUTurn ∧ playerPlays 1 c = Some c' ∧
           playerCards c' ≠ playerCards c ∧ cardsOnTable c' = cardsOnTable c + 1) ∧
  (∃ c c', play zeros 1 [] = Some c ∧ reachable c ∧
           gameState c = StatePlayerTurn ∧ cpuPlays c = Some c' ∧
           cpuCards c' ≠ cpuCards c ∧ cardsOnTable c' = cardsOnTable c + 1).
Proof.
  split.
  - eexists _, _. split; [vm_compute; reflexivity|].
    split; [apply (play_reachable zeros 1 [OpPlayerPlays 0]); [lia|vm_compute; reflexivity]|].
    split; [reflexivity|]. split; [vm_compute; reflexivity|].
    split; [discriminate|reflexivity].
  - eexists _, _. split; [vm_compute; reflexivity|].
    split; [apply (play_reachable zeros 1 []); [lia|vm_compute; reflexivity]|].
    split; [reflexivity|]. split; [vm_compute; reflexivity|].
    split; [discriminate|reflexivity].
Qed.

(** ** C5: playing an empty slot *)

(** C5 fails on the code: the snapshot is saved before the slot is looked
    at.  After the first round of the game (the player's 4, the computer's
    Jack, the capture finalised) slot 0 is empty; playing it again returns
    at the nil check with every field but the undo snapshot unchanged, and
    the snapshot now holds the current state: the undo that would have given
    the card back before gives nothing back after. *)
Theorem empty_slot_play_overwrites_snapshot :
  ∃ c c' u u',
    play zeros 1 [OpPlayerPlays 0; OpCpuPlays; OpFinalizeCapture] = Some c ∧ reachable c ∧
    gameState c = StatePlayerTurn ∧ index (playerCards c) 0 = Some None ∧
    playerPlays 0 c = Some c' ∧
    c' = set_undoState (undoState c') c ∧
    undoState c' ≠ undoState c ∧
    undoImplementation c = Some (true, u) ∧
    index (playerCards u) 0 = Some (Some (NewCard "Four" "Hearts" "4")) ∧
    undoImplementation c' = Some (true, u') ∧
    playerCards u' = playerCards c.
Proof.
  eexists _, _, _, _. split; [vm_compute; reflexivity|].
  split; [apply (play_reachable zeros 1 [OpPlayerPlays 0; OpCpuPlays; OpFinalizeCapture]);
          [lia|vm_compute; reflexivity]|].
  split; [reflexivity|]. split; [reflexivity|].
  split; [vm_compute; reflexivity|]. split; [reflexivity|].
  split; [intros H; apply (f_equal UndoState.cardsOnTable) in H; discriminate H|].
  split; [vm_compute; reflexivity|]. split; [reflexivity|].
  split; [vm_compute; reflexivity|]. reflexivity.
Qed.

(** ** C2: undo, once *)

Lemma restored_view c c' :
  WF c → WF c' → undoState c' = snapshotOf c → undoView (restored c') = undoView c.
Proof.
  intros H H' Hu. pose proof (WF_table_le c H) as Hle.
  pose proof (wf_count c H) as Hn. pose proof (wf_memlen c H) as Hml.
  unfold undoView, restored, pile. red_state. rewrite Hu.
  cbn [snapshotOf UndoState.playerCards UndoState.cpuCards UndoState.tableCards
       UndoState.cardsOnTable UndoState.playerPoint UndoState.cpuPoint
       UndoState.cardsCollectedByPlayer UndoState.cardsCollectedByCPU
       UndoState.currentHandMemory UndoState.currentHandMemoryLength].
  rewrite (copy_same_length (playerCards c')) by (by rewrite (wf_player c H), (wf_player c' H')).
  rewrite (copy_same_length (cpuCards c')) by (by rewrite (wf_cpu c H), (wf_cpu c' H')).
  rewrite (copyAndClear_prefix (tableCards c'))
    by (unfold pile; rewrite length_take, ?(wf_table c H), ?(wf_table c' H'); lia).
  rewrite (copyAndClear_prefix (currentHandMemory c'))
    by (rewrite length_take, ?(wf_mem c H), ?(wf_mem c' H'); lia).
  reflexivity.
Qed.

Lemma undo_then_refused c :
  WF c → canUndo c = true →
  undoImplementation c = Some (true, restored c) ∧
  undoImplementation (restored c) = Some (false, restored c).
Proof.
  intros H Hc. pose proof (SnapOK_nonneg _ _ (wf_snap c H)) as [Hn Hm].
  split; [by apply undo_restores|]. by apply undo_refused.
Qed.

(** The player's move on a held slot below the top tier: the snapshot is
    the state before the move, and the undo flag is untouched. *)
Lemma playerPlays_snapshot_kept i k c :
  WF c → level c ≠ LevelAdvanced → index (playerCards c) i = Some (Some k) →
  ∃ c1, playerPlays i c = Some c1 ∧ WF c1 ∧
        undoState c1 = snapshotOf c ∧ canUndo c1 = canUndo c.
Proof.
  intros H Hlv Hk.
  destruct (playerPlays_held i k c H Hk) as (c' & _ & Hpost & Hp).
  exists (endInitialPile c'). split; [done|].
  split; [by eapply playerPlays_wf|].
  assert (Hs : snapshotTaken c = set_undoState (snapshotOf c) c).
  { unfold snapshotTaken. by rewrite bool_decide_eq_true_2. }
  unfold endInitialPile. destruct (isInitialPile c'); red_state;
    rewrite (pt_undo _ _ _ _ Hpost), (pt_canUndo _ _ _ _ Hpost);
    unfold playerHandsOver; rewrite Hs; done.
Qed.

(** The computer's move keeps the snapshot and, when it plays a card,
    sets the undo flag. *)
Lemma cpuPlays_arms_undo c c' :
  WF c → cpuPlays c = Some c' →
  undoState c' = undoState c ∧ (cpuCards c' ≠ cpuCards c → canUndo c' = true).
Proof.
  intros H Hc.
  destruct (cpuPlays_cases c c' Hc)
    as [[_ ->]|[(idx & r & _ & ->)|(idx & r & k & c2 & Hi & Hc2 & ->)]].
  - done.
  - done.
  - pose proof (cpuPlays_turn idx r k c c2 H Hi Hc2) as Hpost.
    split; [|done]. red_state. by rewrite (pt_undo _ _ _ _ Hpost).
Qed.

(** C2, as the code has it. In a state of a game below the top tier with
    slot [i] held, [playerPlays i] returns a state [c1] in which the undo
    flag is what it was before the move, for the flag is set by the
    computer's move only.  When the flag was set, an immediate undo
    succeeds and restores the hands, the table pile, the scores, the
    collection counts and the current-hand memory of the state before the
    move, and a second immediate undo fails and changes nothing; when it
    was clear, the immediate undo fails and changes nothing.  After the
    computer has answered by playing a card, undo succeeds and restores the
    state before the player's move, and a second undo fails. *)
Theorem undo_once (c : Casino) (i : Z) (k : Card) :
  reachable c → level c ≠ LevelAdvanced →
  index (playerCards c) i = Some (Some k) →
  ∃ c1, playerPlays i c = Some c1 ∧
    (canUndo c = true →
       ∃ c2, undoImplementation c1 = Some (true, c2) ∧ undoView c2 = undoView c ∧
             undoImplementation c2 = Some (false, c2)) ∧
    (canUndo c = false → undoImplementation c1 = Some (false, c1)) ∧
    (∀ c2, cpuPlays c1 = Some c2 → cpuCards c2 ≠ cpuCards c1 →
       ∃ c3, undoImplementation c2 = Some (true, c3) ∧ undoView c3 = undoView c ∧
             undoImplementation c3 = Some (false, c3)).
Proof.
  intros H%reachable_wf Hlv Hk.
  destruct (playerPlays_snapshot_kept i k c H Hlv Hk) as (c1 & Hp & H1 & Hu & Hf).
  exists c1. split; [done|]. split; [|split].
  - intros Hc. rewrite <- Hf in Hc.
    destruct (undo_then_refused c1 H1 Hc) as [Ha Hb].
    exists (restored c1). split; [done|]. split; [|done]. by apply restored_view.
  - intros Hc. rewrite <- Hf in Hc. by apply undo_refused.
  - intros c2 Hc2 Hplayed.
    destruct (cpuPlays_arms_undo c1 c2 H1 Hc2) as [Hu2 Harm].
    pose proof (cpuPlays_wf c1 c2 H1 Hc2) as H2.
    destruct (undo_then_refused c2 H2 (Harm Hplayed)) as [Ha Hb].
    exists (restored c2). split; [done|]. split; [|done].
    apply restored_view; [done|done|congruence].
Qed.

Lemma undo_once_witness :
  ∃ c c1 c2 c3,
    play zeros 1 [] = Some c ∧
    (reachable c ∧ level c ≠ LevelAdvanced ∧
     index (playerCards c) 0 = Some (Some (NewCard "Four" "Hearts" "4"))) ∧
    playerPlays 0 c = Some c1 ∧ cpuPlays c1 = Some c2 ∧
    undoImplementation c2 = Some (true, c3) ∧ undoView c3 = undoView c ∧
    undoImplementation c3 = Some (false, c3).
Proof.
  eexists _, _, _, _. split; [vm_compute; reflexivity|].
  match goal with |- (reachable ?c ∧ _) ∧ _ =>
    assert (H : reachable c)
      by (apply (play_reachable zeros 1 []); [lia|vm_compute; reflexivity])
  end.
  split; [split; [exact H|split; [discriminate|reflexivity]]|].
  match goal with |- playerPlays 0 ?c = _ ∧ _ =>
    destruct (undo_once c 0 (NewCard "Four" "Hearts" "4") H) as (c1 & Hp & _ & _ & Hround);
      [discriminate|reflexivity|]
  end.
  assert (Hc1 : Some c1 = ltac:(let t := eval vm_compute in
                  (c ← play zeros 1 []; playerPlays 0 c) in exact t)).
  { rewrite <- Hp. vm_compute. reflexivity. }
  injection Hc1 as ->.
  split; [vm_compute; reflexivity|].
  split; [vm_compute; reflexivity|].
  match goal with |- undoImplementation ?c2 = _ ∧ _ =>
    destruct (Hround c2) as (c3 & Hu & Hv & Hr);
      [vm_compute; reflexivity|vm_compute; discriminate|]
  end.
  assert (Hc3 : Some (true, c3) = ltac:(let t := eval vm_compute in
                  (c ← play zeros 1 [OpPlayerPlays 0; OpCpuPlays];
                   undoImplementation c) in exact t)).
  { rewrite <- Hu. vm_compute. reflexivity. }
  injection Hc3 as ->.
  split; [exact Hu|]. split; [exact Hv|exact Hr].
Defined.

(** C2 fails as stated: in a freshly started Beginner game slot 0 is held,
    and the undo that follows [playerPlays 0] at once is refused, the card
    staying on the table. *)
Lemma undo_refused_before_the_reply :
  ∃ c c1, play zeros 1 [] = Some c ∧ reachable c ∧
          level c = LevelBeginner ∧
          index (playerCards c) 0 = Some (Some (NewCard "Four" "Hearts" "4")) ∧
          playerPlays 0 c = Some c1 ∧
          undoImplementation c1 = Some (false, c1) ∧
          playerCards c1 ≠ playerCards c ∧ cardsOnTable c1 = cardsOnTable c + 1.
Proof.
  eexists _, _. split; [vm_compute; reflexivity|].
  split; [apply (play_reachable zeros 1 []); [lia|vm_compute; reflexivity]|].
  split; [reflexivity|]. split; [reflexivity|].
  split; [vm_compute; reflexivity|]. split; [vm_compute; reflexivity|].
  split; [discriminate|reflexivity].
Qed.

(** ** C3: undo at the top tier *)

Lemma playerPlays_no_snapshot_at_top i c c' :
  WF c → level c = LevelAdvanced → playerPlays i c = Some c' →
  undoState c' = undoState c.
Proof.
  intros H Hlv Hp.
  assert (Hs : snapshotTaken c = c).
  { unfold snapshotTaken. rewrite bool_decide_eq_false_2; [done|]. by intros []. }
  destruct (index (playerCards c) i) as [[k|]|] eqn:Hx.
  - destruct (playerPlays_held i k c H Hx) as (c2 & _ & Hpost & Hc2).
    assert (c' = endInitialPile c2) as -> by congruence.
    unfold endInitialPile. destruct (isInitialPile c2); red_state;
      rewrite (pt_undo _ _ _ _ Hpost); unfold playerHandsOver; rewrite Hs; done.
  - rewrite (playerPlays_empty i c H Hx), Hs in Hp. congruence.
  - rewrite playerPlays_snapshot in Hp by done.
    by rewrite snapshotTaken_player, Hx in Hp.
Qed.

(** C3, as the code has it. At the top tier undo is switched off by the
    driver, not by the engine: in every Advanced state of a game the undo
    button that [updateUI] enables is off, and [playerPlays] saves no
    snapshot.  [undoImplementation] itself tests the undo flag only: with
    the flag clear it returns failure and leaves the state unchanged, and
    with the flag set (the computer's move sets it at every tier) it goes
    through. *)
Theorem undo_at_top_tier (c : Casino) :
  reachable c → level c = LevelAdvanced →
  undoButtonEnabled c = false ∧
  (∀ i c', playerPlays i c = Some c' → undoState c' = undoState c) ∧
  (canUndo c = false → undoImplementation c = Some (false, c)) ∧
  (canUndo c = true → undoImplementation c = Some (true, restored c)).
Proof.
  intros H%reachable_wf Hlv. split; [|split; [|split]].
  - unfold undoButtonEnabled. rewrite Hlv.
    rewrite bool_decide_eq_false_2 by (by intros []). by destruct (gameState c).
  - intros i c'. by apply playerPlays_no_snapshot_at_top.
  - apply undo_refused.
  - intros Hc. by apply undo_then_refused.
Qed.

Lemma undo_at_top_tier_witness :
  ∃ c, play zeros 3 [] = Some c ∧
       (reachable c ∧ level c = LevelAdvanced) ∧
       undoButtonEnabled c = false ∧
       undoImplementation c = Some (false, c).
Proof.
  eexists. split; [vm_compute; reflexivity|].
  match goal with |- (reachable ?c ∧ _) ∧ _ =>
    assert (H : reachable c)
      by (apply (play_reachable zeros 3 []); [lia|vm_compute; reflexivity])
  end.
  split; [split; [exact H|reflexivity]|].
  match goal with |- undoButtonEnabled ?c = _ ∧ _ =>
    destruct (undo_at_top_tier c H eq_refl) as (Hb & _ & Hr & _)
  end.
  split; [exact Hb|]. apply Hr. reflexivity.
Defined.

(** C3 fails as stated: in an Advanced game, once the computer has played,
    [undoImplementation] returns success and overwrites the scores and the
    table pile with the zero values of a snapshot that was never taken. *)
Lemma undo_succeeds_at_top_tier :
  ∃ c c', play zeros 3 [OpPlayerPlays 0; OpCpuPlays] = Some c ∧ reachable c ∧
          level c = LevelAdvanced ∧
          undoImplementation c = Some (true, c') ∧
          cardsOnTable c = 6 ∧ cardsOnTable c' = 0 ∧
          cpuPoint c = 2 ∧ cpuPoint c' = 0.
Proof.
  eexists _, _. split; [vm_compute; reflexivity|].
  split; [apply (play_reachable zeros 3 [OpPlayerPlays 0; OpCpuPlays]);
          [lia|vm_compute; reflexivity]|].
  split; [reflexivity|]. split; [vm_compute; reflexivity|].
  repeat split; reflexivity.
Qed.

(** ** C6: who plays after a capture *)

(** C6 fails on the code. After the computer has captured the pile (the
    player's 4, then the computer's Jack), the state is [StatePileCaptured]
    with the computer as the last scorer; [finalizeCapture] clears the pile
    count and hands the turn to the player, not to the scorer. *)
Theorem finalizeCapture_after_computer_capture :
  ∃ c, play zeros 1 [OpPlayerPlays 0; OpCpuPlays] = Some c ∧ reachable c ∧
       gameState c = StatePileCaptured ∧ lastScorer c = CPU ∧
       cardsOnTable (finalizeCapture c) = 0 ∧
       gameState (finalizeCapture c) = StatePlayerTurn.
Proof.
  eexists. split; [vm_compute; reflexivity|].
  split; [apply (play_reachable zeros 1 [OpPlayerPlays 0; OpCpuPlays]);
          [lia|vm_compute; reflexivity]|].
  repeat split; reflexivity.
Qed.

(** What [finalizeCapture] does in general: the pile count is cleared, and
    every state but [StateGameOver] becomes [StatePlayerTurn], whoever
    scored last. *)
Lemma finalizeCapture_spec c :
  cardsOnTable (finalizeCapture c) = 0 ∧
  gameState (finalizeCapture c) =
    (if bool_decide (gameState c = StateGameOver) then StateGameOver else StatePlayerTurn).
Proof.
  unfold finalizeCapture. red_state.
  destruct (gameState c); cbn; done.
Qed.

(** ** C9: starting without a level *)

Lemma reachable_lifetime c : reachable c → lifetime c.
Proof.
  induction 1 as [r l c Hl Hs|o c c' _ IH Hr].
  - unfold startAt in Hs.
    destruct (StartGame (SetLevel l (NewCasino r))) as [[[|] c0]|] eqn:Hst; try done.
    assert (c0 = c) as -> by congruence.
    apply (life_start (SetLevel l (NewCasino r)) true); [|done].
    apply life_level, life_new.
  - by apply (life_run o c).
Qed.

(** The three loops of [resetGameInternal]. *)
Lemma forgetAllPlayed_spec c :
  length (allPlayedCardsMemory c) = 52%nat →
  ∃ a, forgetAllPlayed c = Some (set_allPlayedCardsMemory a c) ∧ length a = 52%nat.
Proof.
  intros Ha. unfold forgetAllPlayed.
  destruct (for_range_inv
    (λ (i : Z) s, ∃ a, s = set_allPlayedCardsMemory a c ∧ length a = 52%nat)
    (λ i c, m ← store (allPlayedCardsMemory c) i None; Some (set_allPlayedCardsMemory m c))
    (length (allPlayedCardsMemory c)) 0 c) as (s & Hs & a & -> & Hla).
  - intros i t0 Hi (a & -> & Hla).
    red_state. rewrite store_in_range by lia. red_state.
    eexists. split; [reflexivity|]. eexists. split; [reflexivity|]. by rewrite length_insert.
  - exists (allPlayedCardsMemory c). split; [by destruct c|done].
  - eauto.
Qed.

Lemma clearHands_spec c :
  length (playerCards c) = 4%nat → length (cpuCards c) = 4%nat →
  ∃ p q, clearHands c = Some (set_cpuCards q (set_playerCards p c)) ∧
         held p = 0 ∧ held q = 0 ∧ length p = 4%nat ∧ length q = 4%nat.
Proof.
  intros Hp Hq. unfold clearHands.
  destruct (for_range_inv
    (λ (i : Z) s, ∃ p q, s = set_cpuCards q (set_playerCards p c) ∧
                         length p = 4%nat ∧ length q = 4%nat ∧
                         held (take (Z.to_nat i) p) = 0 ∧ held (take (Z.to_nat i) q) = 0)
    (λ i c, p ← store (playerCards c) i None; q ← store (cpuCards c) i None;
            Some (set_cpuCards q (set_playerCards p c)))
    (Z.to_nat HandSize) 0 c) as (s & Hs & p & q & -> & Hlp & Hlq & Hhp & Hhq).
  - intros i t0 Hi (p & q & -> & Hlp & Hlq & Hhp & Hhq).
    change (Z.of_nat (Z.to_nat HandSize)) with 4 in Hi.
    red_state. rewrite store_in_range by lia. red_state.
    rewrite store_in_range by lia. red_state.
    eexists. split; [reflexivity|]. eexists _, _. split; [reflexivity|].
    rewrite !length_insert. do 2 (split; [done|]).
    replace (Z.to_nat (i + 1)) with (S (Z.to_nat i)) by lia.
    assert (Hp' : <[Z.to_nat i := None]> p !! Z.to_nat i = Some None)
      by (apply list_lookup_insert_eq; lia).
    assert (Hq' : <[Z.to_nat i := None]> q !! Z.to_nat i = Some None)
      by (apply list_lookup_insert_eq; lia).
    rewrite (take_S_r _ _ _ Hp'), (take_S_r _ _ _ Hq'), !take_insert_ge by lia.
    assert (Happ : ∀ xs : list Slot, held xs = 0 → held (xs ++ [None]) = 0).
    { intros xs. induction xs as [|[?|] xs IH]; cbn [held app]; [done| |done].
      pose proof (held_nonneg xs). lia. }
    split; by apply Happ.
  - exists (playerCards c), (cpuCards c). split; [by destruct c|done].
  - exists p, q. split; [exact Hs|].
    change (Z.to_nat (0 + Z.of_nat (Z.to_nat HandSize))) with 4%nat in Hhp, Hhq.
    rewrite <- Hlp in Hhp at 1. rewrite <- Hlq in Hhq at 1.
    rewrite firstn_all in Hhp, Hhq. done.
Qed.

Lemma clearSlices_spec c :
  length (tableCards c) = 52%nat → length (currentHandMemory c) = 52%nat →
  length (allPlayedCardsMemory c) = 52%nat →
  ∃ t m a, clearSlices c =
             Some (set_allPlayedCardsMemory a (set_currentHandMemory m (set_tableCards t c))) ∧
           length t = 52%nat ∧ length m = 52%nat ∧ length a = 52%nat.
Proof.
  intros Ht Hm Ha. unfold clearSlices.
  destruct (for_range_inv
    (λ (i : Z) s, ∃ t m a, s = set_allPlayedCardsMemory a (set_currentHandMemory m
                                 (set_tableCards t c)) ∧
                           length t = 52%nat ∧ length m = 52%nat ∧ length a = 52%nat)
    (λ i c, t ← store (tableCards c) i None; m ← store (currentHandMemory c) i None;
            a ← store (allPlayedCardsMemory c) i None;
            Some (set_allPlayedCardsMemory a (set_currentHandMemory m (set_tableCards t c))))
    (Z.to_nat DeckSize) 0 c) as (s & Hs & t & m & a & -> & Hlt & Hlm & Hla).
  - intros i t0 Hi (t & m & a & -> & Hlt & Hlm & Hla).
    change (Z.of_nat (Z.to_nat DeckSize)) with 52 in Hi.
    red_state. rewrite store_in_range by lia. red_state.
    rewrite store_in_range by lia. red_state.
    rewrite store_in_range by lia. red_state.
    eexists. split; [reflexivity|]. eexists _, _, _. split; [reflexivity|].
    by rewrite !length_insert.
  - exists (tableCards c), (currentHandMemory c), (allPlayedCardsMemory c).
    split; [by destruct c|done].
  - exists t, m, a. done.
Qed.

Lemma resetGameInternal_spec c :
  length (playerCards c) = 4%nat → length (cpuCards c) = 4%nat →
  length (tableCards c) = 52%nat → length (currentHandMemory c) = 52%nat →
  length (allPlayedCardsMemory c) = 52%nat →
  ∃ c', resetGameInternal c = Some c' ∧ Cleared c'.
Proof.
  intros Hp Hq Ht Hm Ha. unfold resetGameInternal.
  destruct (forgetAllPlayed_spec (resetScores c)) as (a & -> & Hla); [done|].
  rewrite bind_Some; cbv beta.
  set (c1 := resetFlags _).
  destruct (clearHands_spec c1) as (p & q & -> & Hhp & Hhq & Hlp & Hlq); [done..|].
  rewrite bind_Some; cbv beta.
  set (c2 := set_cpuCards q _).
  destruct (clearSlices_spec c2) as (t & m & a' & -> & _); [done..|].
  eexists. split; [reflexivity|].
  constructor; try reflexivity; try done.
Qed.

(** C9, as the code has it. With no level chosen, [StartGame] returns
    failure; it leaves the state unchanged when the game state is
    [StateNotStarted], and in every other game state it has reset the
    engine first ([resetGameInternal]). *)
Theorem StartGame_without_level (c : Casino) :
  level c = LevelNotSelected →
  (gameState c = StateNotStarted → StartGame c = Some (false, c)) ∧
  (gameState c ≠ StateNotStarted → WF c →
     ∃ c', resetGameInternal c = Some c' ∧ StartGame c = Some (false, c') ∧
           gameState c' = StateNotStarted ∧ cardsOnTable c' = 0 ∧ currentCard c' = 0).
Proof.
  intros Hlv. split.
  - intros Hg. unfold StartGame.
    destruct (decide (gameState c ≠ StateNotStarted)); [done|].
    rewrite bind_Some; cbv beta.
    by destruct (decide (level c = LevelNotSelected)).
  - intros Hg H.
    destruct (resetGameInternal_spec c) as (c' & Hr & Hc'); [apply H..|].
    exists c'. split; [done|].
    unfold StartGame. destruct (decide (gameState c ≠ StateNotStarted)); [|done].
    rewrite Hr, bind_Some; cbv beta.
    destruct (decide (level c' = LevelNotSelected)) as [_|Hn].
    + split; [done|]. split; [apply Hc'|]. split; apply Hc'.
    + destruct Hn. apply Hc'.
Qed.

Lemma StartGame_without_level_witness :
  level (NewCasino zeros) = LevelNotSelected ∧
  StartGame (NewCasino zeros) = Some (false, NewCasino zeros).
Proof.
  split; [reflexivity|].
  apply (proj1 (StartGame_without_level (NewCasino zeros) eq_refl)). reflexivity.
Defined.

(** C9 fails as stated: [SetLevel] accepts [LevelNotSelected], also during
    a game; [StartGame] then returns failure, but only after it has reset
    the game that was in progress. *)
Lemma StartGame_resets_a_game_in_progress :
  ∃ c0 c c', play zeros 1 [] = Some c0 ∧ c = SetLevel 0 c0 ∧ lifetime c ∧
             level c = LevelNotSelected ∧ gameState c = StatePlayerTurn ∧
             StartGame c = Some (false, c') ∧
             gameState c' = StateNotStarted ∧
             cardsOnTable c = 4 ∧ cardsOnTable c' = 0 ∧
             currentCard c = 12 ∧ currentCard c' = 0.
Proof.
  eexists _, _, _. split; [vm_compute; reflexivity|]. split; [reflexivity|].
  split.
  { apply life_level, reachable_lifetime.
    apply (play_reachable zeros 1 []); [lia|vm_compute; reflexivity]. }
  split; [reflexivity|]. split; [reflexivity|].
  split; [vm_compute; reflexivity|].
  repeat split; reflexivity.
Qed.

(** ** C1: card conservation *)

Lemma driven_reachable c : driven c → reachable c.
Proof.
  induction 1 as [r l c Hl Hs|i c c' _ IH _ Hp|c c' _ IH _ Hp|c _ IH _|c c' _ IH _ _ Hp].
  - by apply (reach_start r l).
  - by apply (reach_step (OpPlayerPlays i) c).
  - by apply (reach_step OpCpuPlays c).
  - by apply (reach_step OpFinalizeCapture c).
  - by apply (reach_step OpCheckEndOfHand c).
Qed.

Lemma Conserved_ext c c' :
  currentCard c' = currentCard c → playerCards c' = playerCards c →
  cpuCards c' = cpuCards c → cardsOnTable c' = cardsOnTable c →
  cardsCollectedByPlayer c' = cardsCollectedByPlayer c →
  cardsCollectedByCPU c' = cardsCollectedByCPU c → gameState c' = gameState c →
  Conserved c → Conserved c'.
Proof.
  intros E1 E2 E3 E4 E5 E6 E7 [H1 H2 H3].
  constructor; unfold cardSum, capturedPile in *;
    rewrite ?E1, ?E2, ?E3, ?E4, ?E5, ?E6, ?E7; assumption.
Qed.

Lemma capturedPile_not_captured c : gameState c ≠ StatePileCaptured → capturedPile c = 0.
Proof. intros H. unfold capturedPile. by rewrite bool_decide_eq_false_2. Qed.

Lemma capturedPile_captured c : gameState c = StatePileCaptured → capturedPile c = cardsOnTable c.
Proof. intros H. unfold capturedPile. by rewrite bool_decide_eq_true_2. Qed.

(** A turn played with a card that has just left a hand. *)
Lemma turn_conserved k pid s c' :
  WF s → 0 <= cardsCollectedByPlayer s → 0 <= cardsCollectedByCPU s →
  cardSum s = 51 → turnOf pid ≠ StatePileCaptured →
  TurnPost k pid s c' → Conserved c'.
Proof.
  intros H Hp Hq Hsum Hturn P.
  pose proof (wf_cursor s H) as [Hc _]. pose proof (wf_count s H) as Hn.
  pose proof (held_nonneg (playerCards s)). pose proof (held_nonneg (cpuCards s)).
  unfold cardSum in Hsum.
  pose proof (pt_player _ _ _ _ P) as Epl. pose proof (pt_cpu _ _ _ _ P) as Ecp.
  pose proof (pt_cursor _ _ _ _ P) as Ecc. pose proof (pt_count _ _ _ _ P) as Ect.
  destruct (pt_outcome _ _ _ _ P) as [(Hg & E1 & E2 & _)|(Hg & _ & Hcol)].
  - constructor; unfold cardSum; rewrite ?capturedPile_not_captured by congruence;
      rewrite ?Epl, ?Ecp, ?Ecc, ?Ect, ?E1, ?E2; lia.
  - destruct (bool_decide (pid = Player)); destruct Hcol as [E1 E2];
      rewrite wrap_small in E1 by lia;
      constructor; unfold cardSum; rewrite ?capturedPile_captured by done;
      rewrite ?Epl, ?Ecp, ?Ecc, ?Ect, ?E1, ?E2; lia.
Qed.

Lemma playerPlays_conserved i c c' :
  WF c → Conserved c → gameState c ≠ StatePileCaptured →
  playerPlays i c = Some c' → Conserved c'.
Proof.
  intros H [Hp Hq Hsum] Hg Hplay. rewrite capturedPile_not_captured in Hsum by done.
  assert (Hsnap : ∀ f : Casino → Z,
    (∀ u, f (set_undoState u c) = f c) → f (snapshotTaken c) = f c).
  { intros f Hf. unfold snapshotTaken. by destruct (bool_decide _). }
  destruct (index (playerCards c) i) as [[k|]|] eqn:Hx.
  - destruct (playerPlays_held i k c H Hx) as (c2 & _ & Hpost & Hc2).
    assert (c' = endInitialPile c2) as -> by congruence.
    destruct (playerHandsOver_wf i k c H Hx) as [H1 _].
    apply index_Some in Hx as [_ Hx].
    pose proof (held_take_card _ _ _ Hx) as Hh.
    assert (Conserved c2) as Hc.
    { apply (turn_conserved k Player (playerHandsOver i c)); try done.
      - unfold playerHandsOver. red_state. by rewrite (Hsnap cardsCollectedByPlayer).
      - unfold playerHandsOver. red_state. by rewrite (Hsnap cardsCollectedByCPU).
      - unfold cardSum, playerHandsOver in *. red_state.
        rewrite snapshotTaken_player, Hh.
        rewrite (Hsnap currentCard), (Hsnap cardsOnTable), (Hsnap cardsCollectedByPlayer),
          (Hsnap cardsCollectedByCPU), (Hsnap (λ c, held (cpuCards c))) by done. lia. }
    revert Hc. unfold endInitialPile. destruct (isInitialPile c2); [|done].
    apply Conserved_ext; reflexivity.
  - rewrite (playerPlays_empty i c H Hx) in Hplay.
    assert (c' = snapshotTaken c) as -> by congruence.
    unfold snapshotTaken. destruct (bool_decide _).
    + apply (Conserved_ext c); try reflexivity.
      constructor; [done..|]. by rewrite capturedPile_not_captured.
    + constructor; [done..|]. by rewrite capturedPile_not_captured.
  - rewrite playerPlays_snapshot in Hplay by done.
    by rewrite snapshotTaken_player, Hx in Hplay.
Qed.

Lemma cpuPlays_conserved c c' :
  WF c → Conserved c → gameState c ≠ StatePileCaptured →
  cpuPlays c = Some c' → Conserved c'.
Proof.
  intros H Hcons Hg Hplay.
  destruct (cpuPlays_cases c c' Hplay)
    as [[_ ->]|[(idx & r & _ & ->)|(idx & r & k & c2 & Hi & Hc2 & ->)]].
  - done.
  - revert Hcons. apply Conserved_ext; reflexivity.
  - destruct Hcons as [Hp Hq Hsum]. rewrite capturedPile_not_captured in Hsum by done.
    pose proof (cpuPlays_turn idx r k c c2 H Hi Hc2) as Hpost.
    destruct (cpuHandsOver_wf idx r k c H Hi) as [H1 _].
    apply index_Some in Hi as [_ Hi].
    pose proof (held_take_card _ _ _ Hi) as Hh.
    assert (Conserved c2) as Hc.
    { apply (turn_conserved k CPU (cpuHandsOver idx r c)); try done.
      unfold cardSum, cpuHandsOver in *. red_state. rewrite Hh. lia. }
    revert Hc. apply Conserved_ext; reflexivity.
Qed.

Lemma finalizeCapture_conserved c :
  Conserved c → gameState c = StatePileCaptured → Conserved (finalizeCapture c).
Proof.
  intros [Hp Hq Hsum] Hg. rewrite capturedPile_captured in Hsum by done.
  unfold finalizeCapture. red_state. rewrite Hg.
  rewrite bool_decide_eq_true_2 by done.
  constructor; [done..|].
  rewrite capturedPile_not_captured by done.
  unfold cardSum in *. red_state. lia.
Qed.

Lemma checkEndOfHand_conserved c c' :
  WF c → Conserved c → gameState c ≠ StatePileCaptured →
  (handFinished c → held (cpuCards c) = 0) →
  checkEndOfHand c = Some c' → Conserved c'.
Proof.
  intros H [Hp Hq Hsum] Hg Hboth Hc. rewrite capturedPile_not_captured in Hsum by done.
  pose proof (wf_cursor c H) as [Hcc _]. pose proof (wf_count c H) as Hn.
  pose proof (held_nonneg (playerCards c)). pose proof (held_nonneg (cpuCards c)).
  destruct (checkEndOfHand_cases c H)
    as [[Hs _]|[(_ & _ & _ & Hs)|(_ & Hf & Hne & hp & hc & m & ml & sd & Hs & Hrest)]].
  - assert (c' = c) as -> by congruence.
    constructor; [done..|]. by rewrite capturedPile_not_captured.
  - destruct (handleEndOfGame_spec c H) as (p & q & a & b & He & Hab).
    assert (c' = ended p q a b c) as -> by congruence.
    unfold cardSum in Hsum.
    assert (Hwrap : 0 <= a ∧ 0 <= b ∧
                    a + b = cardsCollectedByPlayer c + cardsCollectedByCPU c + cardsOnTable c).
    { destruct Hab as [(Hz & -> & ->)|[(_ & _ & -> & ->)|(_ & _ & -> & ->)]];
        rewrite ?wrap_small by lia; lia. }
    destruct Hwrap as (Ha & Hb & Hab').
    constructor; unfold ended; red_state; [done..|].
    rewrite capturedPile_not_captured by done.
    unfold cardSum. red_state. lia.
  - assert (c' = set_gameState StatePlayerTurn (dealt hp hc m ml sd c)) as -> by congruence.
    destruct Hrest as (Hlp & Hfp & Hlc & Hfc & _).
    pose proof (Hboth Hf) as Hcpu. unfold handFinished in Hf.
    constructor; unfold dealt; red_state; [done..|].
    rewrite capturedPile_not_captured by done.
    unfold cardSum in *. red_state.
    rewrite (held_all hp), (held_all hc), Hlp, Hlc by done. lia.
Qed.

Lemma driven_conserved c : driven c → Conserved c.
Proof.
  intros Hd. pose proof Hd as Hr%driven_reachable%reachable_wf. revert Hr.
  induction Hd as [r l c Hl Hs|i c c' Hd IH Hg Hp|c c' Hd IH Hg Hp|c Hd IH Hg
                  |c c' Hd IH Hg Hboth Hp]; intros Hwf.
  - destruct (startAt_started r l c Hl Hs) as (lv & _ & _ & HS).
    destruct HS. constructor; [lia..|].
    rewrite capturedPile_not_captured by congruence.
    unfold cardSum. lia.
  - pose proof (reachable_wf c (driven_reachable c Hd)) as H.
    by apply (playerPlays_conserved i c c' H (IH H)).
  - pose proof (reachable_wf c (driven_reachable c Hd)) as H.
    by apply (cpuPlays_conserved c c' H (IH H)).
  - pose proof (reachable_wf c (driven_reachable c Hd)) as H.
    by apply finalizeCapture_conserved; [apply IH|].
  - pose proof (reachable_wf c (driven_reachable c Hd)) as H.
    by apply (checkEndOfHand_conserved c c' H (IH H)).
Qed.

(** C1, as the code has it. In every state of a game that the driver
    sequences as the engine expects, and without undo, the undealt cards,
    the cards in both hands, the cards on the table and the cards collected
    by both sides add up to 52 whenever no capture waits to be finalised;
    in [StatePileCaptured] the captured pile is counted twice, on the table
    and as collected, and the sum is 52 plus the pile count. *)
Theorem card_conservation (c : Casino) :
  driven c →
  (gameState c ≠ StatePileCaptured → cardSum c = 52) ∧
  (gameState c = StatePileCaptured → cardSum c = 52 + cardsOnTable c).
Proof.
  intros [_ _ Hsum]%driven_conserved. split; intros Hg.
  - by rewrite capturedPile_not_captured in Hsum.
  - by rewrite capturedPile_captured in Hsum.
Qed.

Lemma card_conservation_witness :
  ∃ c0 c1 c2,
    startAt zeros 1 = Some c0 ∧ playerPlays 0 c0 = Some c1 ∧ cpuPlays c1 = Some c2 ∧
    driven (finalizeCapture c2) ∧
    gameState c2 = StatePileCaptured ∧ cardSum c2 = 52 + cardsOnTable c2 ∧
    cardSum (finalizeCapture c2) = 52.
Proof.
  eexists _, _, _.
  split; [vm_compute; reflexivity|].
  split; [vm_compute; reflexivity|].
  split; [vm_compute; reflexivity|].
  match goal with |- driven (finalizeCapture ?c2) ∧ _ =>
    assert (Hd : driven c2)
  end.
  { eapply driven_cpu;
      [eapply (driven_player 0);
         [eapply (driven_start zeros 1); [lia|vm_compute; reflexivity]
         |discriminate
         |vm_compute; reflexivity]
      |discriminate
      |vm_compute; reflexivity]. }
  pose proof (driven_finalize _ Hd eq_refl) as Hd'.
  split; [exact Hd'|]. split; [reflexivity|].
  split.
  - apply (proj2 (card_conservation _ Hd)). reflexivity.
  - apply (proj1 (card_conservation _ Hd')). discriminate.
Defined.

(** C1 fails as stated: once the computer has captured the pile of six
    cards with its Jack, these six cards are counted on the table and as
    collected until the capture is finalised, and the sum is 58. *)
Lemma captured_pile_is_counted_twice :
  ∃ c, play zeros 1 [OpPlayerPlays 0; OpCpuPlays] = Some c ∧ reachable c ∧
       gameState c = StatePileCaptured ∧
       cardsOnTable c = 6 ∧ cardsCollectedByCPU c = 6 ∧ cardSum c = 58.
Proof.
  eexists. split; [vm_compute; reflexivity|].
  split; [apply (play_reachable zeros 1 [OpPlayerPlays 0; OpCpuPlays]);
          [lia|vm_compute; reflexivity]|].
  repeat split; reflexivity.
Qed.

(** Undo does not restore the deck cursor.  When the last cards of a hand
    have been played and [checkEndOfHand] has dealt the next hand, the undo
    flag is still set; the undo then puts the old hands back over the new
    ones while the cursor stays eight cards further: the eight cards just
    dealt are in no pile any more, and the sum is 44. *)
Lemma undo_after_a_deal_loses_the_hand :
  ∃ c c', play zeros 1 [OpPlayerPlays 0; OpCpuPlays; OpFinalizeCapture;
                        OpPlayerPlays 1; OpCpuPlays; OpPlayerPlays 2; OpCpuPlays;
                        OpPlayerPlays 3; OpCpuPlays; OpCheckEndOfHand] = Some c ∧
          driven c ∧ gameState c = StatePlayerTurn ∧ undoButtonEnabled c = true ∧
          cardSum c = 52 ∧ currentCard c = 20 ∧
          undoImplementation c = Some (true, c') ∧
          currentCard c' = 20 ∧ held (playerCards c') = 1 ∧ held (cpuCards c') = 1 ∧
          cardSum c' = 44.
Proof.
  eexists _, _. split; [vm_compute; reflexivity|].
  split.
  { eapply driven_check;
      [eapply driven_cpu;
        [eapply (driven_player 3);
          [eapply driven_cpu;
            [eapply (driven_player 2);
              [eapply driven_cpu;
                [eapply (driven_player 1);
                  [eapply driven_finalize;
                    [eapply driven_cpu;
                      [eapply (driven_player 0);
                        [eapply (driven_start zeros 1); [lia|vm_compute; reflexivity]
                        |discriminate|vm_compute; reflexivity]
                      |discriminate|vm_compute; reflexivity]
                    |reflexivity]
                  |discriminate|vm_compute; reflexivity]
                |discriminate|vm_compute; reflexivity]
              |discriminate|vm_compute; reflexivity]
            |discriminate|vm_compute; reflexivity]
          |discriminate|vm_compute; reflexivity]
        |discriminate|vm_compute; reflexivity]
      |discriminate|reflexivity|vm_compute; reflexivity]. }
  split; [reflexivity|]. split; [reflexivity|]. split; [reflexivity|].
  split; [reflexivity|]. split; [vm_compute; reflexivity|].
  repeat split; reflexivity.
Qed.
